(** * The tan db collection of dragonboat: keepers and lazy db lookup

    A shallow embedding of [internal/tan/collection.go]: the two [dbKeeper]
    implementations ([regularKeeper], [multiplexedKeeper]) and the
    [collection] that opens tan db instances on demand, followed by the
    properties of the storage layout that the design document states. *)

From Stdlib Require Import NArith String Ascii DecimalString DecimalN.
From stdpp Require Import gmap strings list fin_maps.

Local Open Scope N_scope.

(** ** Go values *)

(** A [uint64] is a number below 2^64 ([is_uint64]). The code only takes
    remainders of such numbers and prints them, so the functions below are
    written on [N], and what is proved of them for every [N] holds on the
    64-bit range. *)
Abbreviation uint64 := N.

Definition is_uint64 (x : N) : Prop := x < 2 ^ 64.

(** A Go [error] value: [None] is [nil]. *)
Definition goerror (err : Type) : Type := option err.

(** The outcome of a Go call that may panic instead of returning. *)
Inductive outcome (A : Type) : Type :=
  | Returned (a : A)
  | Panicked (msg : string).
Arguments Returned {A} a.
Arguments Panicked {A} msg.

(** ** The fragment of [fmt] that the keepers use *)
Module fmt.

(** The [%d] verb applied to an unsigned integer: its decimal digits,
    most significant first, ["0"] for zero. *)
Definition verb_d (u : uint64) : string :=
  NilEmpty.string_of_uint (N.to_uint u).

(** [fmt.Sprintf] for formats made of literal text and [%d] verbs, with
    unsigned operands. An operand that is missing prints as Go prints
    it. *)
Fixpoint Sprintf (format : string) (a : list uint64) : string :=
  match format with
  | EmptyString => EmptyString
  | String "%" (String "d" rest) =>
      match a with
      | u :: a' => (verb_d u ++ Sprintf rest a')%string
      | [] => ("%!d(MISSING)" ++ Sprintf rest [])%string
      end
  | String ch rest => String ch (Sprintf rest a)
  end.

End fmt.

(** ** [raftio.NodeInfo] *)
Module raftio.

Record NodeInfo : Type := { ClusterID : uint64; NodeID : uint64 }.

Definition to_pair (ni : NodeInfo) : N * N := (ClusterID ni, NodeID ni).
Definition of_pair (p : N * N) : NodeInfo :=
  {| ClusterID := p.1; NodeID := p.2 |}.

#[global] Instance NodeInfo_eq_dec : EqDecision NodeInfo.
Proof. solve_decision. Defined.

#[global] Instance NodeInfo_countable : Countable NodeInfo :=
  inj_countable' to_pair of_pair
    (λ ni, match ni with Build_NodeInfo _ _ => eq_refl end).

End raftio.

(** ** The keepers *)
Section keepers.
(** [db] stands for the pointer type [*db]: two handles are the same db
    instance exactly when they are equal. *)
Context {db : Type}.

(** The loop of both [iterate] methods, over the handles in the order
    the range statement happens to yield them. The callback [f] acts on a
    state [S] of its own; the result is the error returned, the state
    the callbacks left, and the handles [f] was applied to, in order. *)
Fixpoint range_loop {S err : Type} (f : db → S → goerror err * S)
    (order : list db) (s : S) : goerror err * S * list db :=
  match order with
  | [] => (None, s, [])
  | d :: rest =>
      match f d s with
      | (Some e, s') => (Some e, s', [d])
      | (None, s') =>
          let '(r, s'', visited) := range_loop f rest s' in
          (r, s'', d :: visited)
      end
  end.

(** The [dbKeeper] interface. [get] returns [Some v] for [(v, true)] and
    [None] for [(nil, false)]; [set] returns the keeper after the
    update. Go ranges over a map in an order it does not specify, so
    [iterate k f s out] says that [out] is what one run of the method can
    yield from the callback state [s]. *)
Class dbKeeper (K : Type) : Type := {
  multiplexedLog : K → bool;
  name : K → uint64 → uint64 → string;
  key : K → uint64 → outcome uint64;
  get : K → uint64 → uint64 → option db;
  set : K → uint64 → uint64 → db → K;
  iterate : ∀ {S err : Type},
    K → (db → S → goerror err * S) → S → goerror err * S * list db → Prop;
}.

(** [regularKeeper] assigns a unique tan db instance to each raft node. *)
Record regularKeeper : Type :=
  { regular_dbs : gmap raftio.NodeInfo db }.

Definition newRegularDBKeeper : regularKeeper :=
  {| regular_dbs := ∅ |}.

Definition regularKeeper_multiplexedLog (k : regularKeeper) : bool :=
  false.

Definition regularKeeper_name (k : regularKeeper)
    (clusterID nodeID : uint64) : string :=
  fmt.Sprintf "node-%d-%d" [clusterID; nodeID].

Definition regularKeeper_key (k : regularKeeper)
    (clusterID : uint64) : outcome uint64 :=
  Panicked "not suppose to be called".

Definition regularKeeper_get (k : regularKeeper)
    (clusterID nodeID : uint64) : option db :=
  let ni := {| raftio.ClusterID := clusterID; raftio.NodeID := nodeID |} in
  regular_dbs k !! ni.

Definition regularKeeper_set (k : regularKeeper)
    (clusterID nodeID : uint64) (d : db) : regularKeeper :=
  let ni := {| raftio.ClusterID := clusterID; raftio.NodeID := nodeID |} in
  {| regular_dbs := <[ni := d]> (regular_dbs k) |}.

Definition regularKeeper_iterate {S err : Type} (k : regularKeeper)
    (f : db → S → goerror err * S) (s : S)
    (out : goerror err * S * list db) : Prop :=
  ∃ order,
    order ≡ₚ (map_to_list (regular_dbs k)).*2
    ∧ range_loop f order s = out.

#[global] Instance regularKeeper_dbKeeper : dbKeeper regularKeeper := {|
  multiplexedLog := regularKeeper_multiplexedLog;
  name := regularKeeper_name;
  key := regularKeeper_key;
  get := regularKeeper_get;
  set := regularKeeper_set;
  iterate := @regularKeeper_iterate;
|}.

(** [multiplexedKeeper] divides all raft nodes into groups and assigns
    the nodes of one group to one tan db instance. *)
Record multiplexedKeeper : Type :=
  { multiplexed_dbs : gmap N db }.

Definition newMultiplexedDBKeeper : multiplexedKeeper :=
  {| multiplexed_dbs := ∅ |}.

Definition multiplexedKeeper_multiplexedLog (k : multiplexedKeeper) : bool :=
  true.

Definition multiplexedKeeper_key (k : multiplexedKeeper)
    (clusterID : uint64) : uint64 :=
  clusterID mod 16.

Definition multiplexedKeeper_name (k : multiplexedKeeper)
    (clusterID nodeID : uint64) : string :=
  fmt.Sprintf "shard-%d" [multiplexedKeeper_key k clusterID].

Definition multiplexedKeeper_get (k : multiplexedKeeper)
    (clusterID nodeID : uint64) : option db :=
  multiplexed_dbs k !! multiplexedKeeper_key k clusterID.

Definition multiplexedKeeper_set (k : multiplexedKeeper)
    (clusterID nodeID : uint64) (d : db) : multiplexedKeeper :=
  {| multiplexed_dbs :=
       <[multiplexedKeeper_key k clusterID := d]> (multiplexed_dbs k) |}.

Definition multiplexedKeeper_iterate {S err : Type}
    (k : multiplexedKeeper) (f : db → S → goerror err * S) (s : S)
    (out : goerror err * S * list db) : Prop :=
  ∃ order,
    order ≡ₚ (map_to_list (multiplexed_dbs k)).*2
    ∧ range_loop f order s = out.

#[global] Instance multiplexedKeeper_dbKeeper : dbKeeper multiplexedKeeper := {|
  multiplexedLog := multiplexedKeeper_multiplexedLog;
  name := multiplexedKeeper_name;
  key := λ k clusterID, Returned (multiplexedKeeper_key k clusterID);
  get := multiplexedKeeper_get;
  set := multiplexedKeeper_set;
  iterate := @multiplexedKeeper_iterate;
|}.

(** A value of interface type [dbKeeper]: one of the two implementations,
    with the method calls dispatched on which one it is. *)
Inductive keeperValue : Type :=
  | Regular (k : regularKeeper)
  | Multiplexed (k : multiplexedKeeper).

#[global] Instance keeperValue_dbKeeper : dbKeeper keeperValue := {|
  multiplexedLog := λ v,
    match v with
    | Regular k => multiplexedLog k
    | Multiplexed k => multiplexedLog k
    end;
  name := λ v c n,
    match v with Regular k => name k c n | Multiplexed k => name k c n end;
  key := λ v c,
    match v with Regular k => key k c | Multiplexed k => key k c end;
  get := λ v c n,
    match v with Regular k => get k c n | Multiplexed k => get k c n end;
  set := λ v c n d,
    match v with
    | Regular k => Regular (set k c n d)
    | Multiplexed k => Multiplexed (set k c n d)
    end;
  iterate := λ S err v,
    match v with Regular k => iterate k | Multiplexed k => iterate k end;
|}.

(** The handles a keeper holds, one for each entry of its map. *)
Definition handles (v : keeperValue) : list db :=
  match v with
  | Regular k => (map_to_list (regular_dbs k)).*2
  | Multiplexed k => (map_to_list (multiplexed_dbs k)).*2
  end.

(** The keeper is the multiplexed one and every key of its map is a
    shard number. *)
Definition shard_keys_bounded (v : keeperValue) : Prop :=
  match v with
  | Regular _ => False
  | Multiplexed k => ∀ i, is_Some (multiplexed_dbs k !! i) → i < 16
  end.

(** Two nodes are served by the same entry of the keeper's map: the same
    [NodeInfo] under the regular keeper, the same key under the
    multiplexed one. *)
Definition same_entry (v : keeperValue)
    (clusterID nodeID clusterID' nodeID' : uint64) : Prop :=
  match v with
  | Regular _ => clusterID = clusterID' ∧ nodeID = nodeID'
  | Multiplexed k =>
      multiplexedKeeper_key k clusterID = multiplexedKeeper_key k clusterID'
  end.

End keepers.
Arguments dbKeeper : clear implicits.
Arguments regularKeeper : clear implicits.
Arguments multiplexedKeeper : clear implicits.
Arguments keeperValue : clear implicits.

(** ** The collection *)
Section collection.
(** [World] is whatever the file system and the tan engine keep outside
    this package; [err] is the type of the non-nil error values. *)
Context {db World err : Type}.

(** The methods of [vfs.FS] that the collection calls. [Stat] also
    returns a file info, which the collection discards. *)
Record FS : Type := {
  PathJoin : string → string → string;
  Stat : string → World → goerror err * World;
}.

Record Options : Type := { Options_FS : FS }.

(** What the collection imports: [oserror.IsNotExist] on a non-nil
    error, [fileutil.MkdirAll], and the tan package's [open], which
    returns a handle or an error. *)
Record imports : Type := {
  oserror_IsNotExist : err → bool;
  fileutil_MkdirAll : string → FS → World → goerror err * World;
  open : string → string → Options → World → (db + err) * World;
}.

(** [oserror.IsNotExist] is false on the nil error. *)
Definition IsNotExist (env : imports) (e : goerror err) : bool :=
  match e with
  | Some e => oserror_IsNotExist env e
  | None => false
  end.

(** The calls that leave the package, with what they returned, in the
    order they were made. The log is kept for the statements below
    only: no code reads it. *)
Inductive event : Type :=
  | EvStat (path : string) (r : goerror err)
  | EvMkdirAll (path : string) (r : goerror err)
  | EvOpen (name dirname : string) (r : db + err).

Record io_state : Type := { world : World; log : list event }.

(** Computations that call out of the package. *)
Definition IO (A : Type) : Type := io_state → A * io_state.

#[global] Instance IO_ret : MRet IO := λ A a st, (a, st).
#[global] Instance IO_bind : MBind IO := λ A B k m st,
  let '(a, st') := m st in k a st'.

Definition call_Stat (fs : FS) (path : string) : IO (goerror err) :=
  λ st,
    let '(r, w) := Stat fs path (world st) in
    (r, {| world := w; log := log st ++ [EvStat path r] |}).

Definition call_MkdirAll (env : imports) (path : string) (fs : FS)
    : IO (goerror err) :=
  λ st,
    let '(r, w) := fileutil_MkdirAll env path fs (world st) in
    (r, {| world := w; log := log st ++ [EvMkdirAll path r] |}).

Definition call_open (env : imports) (name dirname : string)
    (opts : Options) : IO (db + err) :=
  λ st,
    let '(r, w) := open env name dirname opts (world st) in
    (r, {| world := w; log := log st ++ [EvOpen name dirname r] |}).

(** [collection] owns a collection of tan db instances. *)
Record collection : Type := {
  fs : FS;
  dirname : string;
  keeper : keeperValue db;
}.

Definition newCollection (dirname : string) (fs : FS) (regular : bool)
    : collection :=
  let k :=
    if regular then Regular newRegularDBKeeper
    else Multiplexed newMultiplexedDBKeeper in
  {| fs := fs; dirname := dirname; keeper := k |}.

Definition collection_multiplexedLog (c : collection) : bool :=
  multiplexedLog (keeper c).

Definition collection_key (c : collection) (clusterID : uint64)
    : outcome uint64 :=
  key (keeper c) clusterID.

Definition prepareDir (env : imports) (c : collection) (dbdir : string)
    : IO (goerror err) :=
  e ← call_Stat (fs c) dbdir;
  if IsNotExist env e then
    e' ← call_MkdirAll env dbdir (fs c);
    match e' with
    | Some x => mret (Some x)
    | None => mret None
    end
  else mret None.

(** [getDB] returns the handle or the error, and the collection as the
    call leaves it. *)
Definition getDB (env : imports) (c : collection)
    (clusterID nodeID : uint64) : IO ((db + err) * collection) :=
  match get (keeper c) clusterID nodeID with
  | Some d => mret (inl d, c)
  | None =>
      let name := name (keeper c) clusterID nodeID in
      let dbdir := PathJoin (fs c) (dirname c) name in
      e ← prepareDir env c dbdir;
      match e with
      | Some x => mret (inr x, c)
      | None =>
          r ← call_open env dbdir dbdir {| Options_FS := fs c |};
          match r with
          | inr x => mret (inr x, c)
          | inl d =>
              mret (inl d,
                    {| fs := fs c; dirname := dirname c;
                       keeper := set (keeper c) clusterID nodeID d |})
          end
      end
  end.

Definition collection_iterate {S : Type} (c : collection)
    (f : db → S → goerror err * S) (s : S)
    (out : goerror err * S * list db) : Prop :=
  iterate (keeper c) f s out.

(** *** Runs of calls on one collection *)

(** A call a client makes: [getDB], or [set] on the keeper. *)
Inductive call : Type :=
  | CallGetDB (clusterID nodeID : uint64)
  | CallSet (clusterID nodeID : uint64) (d : db).

(** What the call returned ([None] for [set], which returns nothing),
    and the collection after it. *)
Definition run_call (env : imports) (c : collection) (op : call)
    : IO (option (db + err) * collection) :=
  match op with
  | CallGetDB clusterID nodeID =>
      r ← getDB env c clusterID nodeID; mret (Some r.1, r.2)
  | CallSet clusterID nodeID d =>
      mret (None,
            {| fs := fs c; dirname := dirname c;
               keeper := set (keeper c) clusterID nodeID d |})
  end.

Fixpoint run_calls (env : imports) (c : collection) (ops : list call)
    : IO (list (option (db + err)) * collection) :=
  match ops with
  | [] => mret ([], c)
  | op :: ops' =>
      r ← run_call env c op;
      rs ← run_calls env r.2 ops';
      mret (r.1 :: rs.1, rs.2)
  end.

Definition getDB_call (id : uint64 * uint64) : call :=
  CallGetDB id.1 id.2.

(** The handles that successful [open] calls returned, oldest first. *)
Fixpoint opened (l : list event) : list db :=
  match l with
  | [] => []
  | EvOpen _ _ (inl d) :: l' => d :: opened l'
  | _ :: l' => opened l'
  end.

(** The directory of the db that serves a node. *)
Definition dbdir_of (c : collection) (clusterID nodeID : uint64)
    : string :=
  PathJoin (fs c) (dirname c) (name (keeper c) clusterID nodeID).

(** The collection after [getDB] has registered a new handle. *)
Definition registered (c : collection) (clusterID nodeID : uint64)
    (d : db) : collection :=
  {| fs := fs c; dirname := dirname c;
     keeper := set (keeper c) clusterID nodeID d |}.

End collection.
Arguments FS : clear implicits.
Arguments Options : clear implicits.
Arguments imports : clear implicits.
Arguments event : clear implicits.
Arguments io_state : clear implicits.
Arguments IO : clear implicits.
Arguments collection : clear implicits.
Arguments call : clear implicits.

(** ** A file system and engine in memory, to run the collection on *)
Module memfs.

(** Handles are numbered in the order the engine hands them out. *)
Definition db : Type := nat.
Definition err : Type := string.

Definition ErrNotExist : err := "file does not exist".
Definition ErrPermission : err := "permission denied".
Definition ErrReadOnly : err := "read-only file system".
Definition ErrOpen : err := "cannot open db".

Record World : Type := {
  dirs : list string;        (* the directories that exist *)
  denied : list string;      (* paths whose stat is refused *)
  readonly : bool;           (* no directory can be created *)
  failing_opens : nat;       (* how many of the next opens fail *)
  next_db : nat;             (* the next handle *)
}.

Definition has (path : string) (l : list string) : bool :=
  existsb (String.eqb path) l.

Definition stat (path : string) (w : World) : goerror err * World :=
  if has path (denied w) then (Some ErrPermission, w)
  else if has path (dirs w) then (None, w)
  else (Some ErrNotExist, w).

Definition fs : FS World err :=
  {| PathJoin := λ dir name, (dir ++ "/" ++ name)%string; Stat := stat |}.

Definition mkdirAll (path : string) (_ : FS World err) (w : World)
    : goerror err * World :=
  if readonly w then (Some ErrReadOnly, w)
  else (None, {| dirs := path :: dirs w; denied := denied w;
                 readonly := readonly w;
                 failing_opens := failing_opens w;
                 next_db := next_db w |}).

Definition open_db (name dirname : string) (_ : Options World err)
    (w : World) : (db + err) * World :=
  match failing_opens w with
  | S n => (inr ErrOpen, {| dirs := dirs w; denied := denied w;
                            readonly := readonly w;
                            failing_opens := n;
                            next_db := next_db w |})
  | O => (inl (next_db w), {| dirs := dirs w; denied := denied w;
                              readonly := readonly w;
                              failing_opens := 0;
                              next_db := Datatypes.S (next_db w) |})
  end.

Definition env : imports db World err :=
  {| oserror_IsNotExist := String.eqb ErrNotExist;
     fileutil_MkdirAll := mkdirAll;
     open := open_db |}.

Definition empty_disk : World :=
  {| dirs := ["/data"%string]; denied := []; readonly := false;
     failing_opens := 0; next_db := 0 |}.

Definition start (w : World) : io_state db World err :=
  {| world := w; log := [] |}.

Definition regular : collection db World err :=
  newCollection "/data" fs true.
Definition multiplexed : collection db World err :=
  newCollection "/data" fs false.

(** A disk on which the stat of [/data/node-5-1] is refused. *)
Definition denied_disk : World :=
  {| dirs := ["/data"%string]; denied := ["/data/node-5-1"%string];
     readonly := false; failing_opens := 0; next_db := 0 |}.

(** A disk on which nothing can be created. *)
Definition readonly_disk : World :=
  {| dirs := ["/data"%string]; denied := []; readonly := true;
     failing_opens := 0; next_db := 0 |}.

(** An engine whose first open fails. *)
Definition flaky_disk : World :=
  {| dirs := ["/data"%string]; denied := []; readonly := false;
     failing_opens := 1; next_db := 0 |}.

(** A callback that counts its calls and fails on handle [bad]. *)
Definition fail_on (bad : db) (d : db) (calls : nat)
    : goerror err * nat :=
  if Nat.eqb d bad then (Some "callback failed"%string, Datatypes.S calls)
  else (None, Datatypes.S calls).

End memfs.

(** ** What the statements below compare the code with *)

(** The state the callbacks leave when [f] is applied to the handles of
    [l] in turn, whatever each call returns. *)
Definition effects {db S err : Type} (f : db → S → goerror err * S)
    (l : list db) (s : S) : S :=
  foldl (λ s d, (f d s).2) s l.

(** The characters of a decimal numeral. *)
Definition is_digit (ch : ascii) : bool :=
  match ch with
  | "0" | "1" | "2" | "3" | "4" | "5" | "6" | "7" | "8" | "9" => true
  | _ => false
  end%char.

Fixpoint all_digits (s : string) : bool :=
  match s with
  | EmptyString => true
  | String ch s' => is_digit ch && all_digits s'
  end.

(** The low four bits of a number, a second way to reduce it modulo 16. *)
Definition low_four_bits (x : N) : N := N.land x 15.

(** * Properties *)

(** ** Decimal names *)
Section names.
Context {db : Type}.
Implicit Types (u c n : N) (s t : string).
#[local] Arguments String.append : simpl nomatch.

Lemma append_empty_r s : (s ++ "")%string = s.
Proof. induction s as [|ch s IH]; simpl; [done | by f_equal]. Qed.

Lemma string_of_uint_digits (d : Decimal.uint) :
  all_digits (NilEmpty.string_of_uint d) = true.
Proof. induction d; simpl; auto. Qed.

Lemma verb_d_digits u : all_digits (fmt.verb_d u) = true.
Proof. apply string_of_uint_digits. Qed.

Lemma verb_d_read_back u :
  N.of_uint <$> NilEmpty.uint_of_string (fmt.verb_d u) = Some u.
Proof.
  unfold fmt.verb_d. rewrite NilEmpty.usu. simpl.
  by rewrite DecimalN.Unsigned.of_to.
Qed.

Lemma verb_d_inj u1 u2 : fmt.verb_d u1 = fmt.verb_d u2 → u1 = u2.
Proof.
  intros Heq. pose proof (verb_d_read_back u1) as H1.
  rewrite Heq, verb_d_read_back in H1. congruence.
Qed.

(** Two digit strings followed by a dash and more text agree only when
    the digit strings and the rests agree. *)
Lemma digits_dash_inj s1 s2 t1 t2 :
  all_digits s1 = true → all_digits s2 = true →
  (s1 ++ String "-" t1)%string = (s2 ++ String "-" t2)%string →
  s1 = s2 ∧ t1 = t2.
Proof.
  revert s2. induction s1 as [|a s1 IH]; intros [|b s2]; simpl.
  - intros _ _ [= ->]. done.
  - intros _ [Hb _]%andb_prop [= <- _]. discriminate Hb.
  - intros [Ha _]%andb_prop _ [= -> _]. discriminate Ha.
  - intros [_ H1]%andb_prop [_ H2]%andb_prop [= -> Heq].
    destruct (IH s2 H1 H2 Heq) as [-> ->]. done.
Qed.

Lemma regularKeeper_name_eq (k : regularKeeper db) c n :
  regularKeeper_name k c n
  = ("node-" ++ fmt.verb_d c ++ "-" ++ fmt.verb_d n)%string.
Proof.
  unfold regularKeeper_name. simpl. by rewrite append_empty_r.
Qed.

Lemma multiplexedKeeper_name_eq (k : multiplexedKeeper db) c n :
  multiplexedKeeper_name k c n
  = ("shard-" ++ fmt.verb_d (c mod 16))%string.
Proof.
  unfold multiplexedKeeper_name, multiplexedKeeper_key. simpl.
  by rewrite append_empty_r.
Qed.

Lemma regularKeeper_name_inj (k1 k2 : regularKeeper db) c1 n1 c2 n2 :
  regularKeeper_name k1 c1 n1 = regularKeeper_name k2 c2 n2 →
  c1 = c2 ∧ n1 = n2.
Proof.
  rewrite !regularKeeper_name_eq. simpl. intros [= Heq].
  apply digits_dash_inj in Heq as [Hc Hn]; [|apply verb_d_digits..].
  split; by apply verb_d_inj.
Qed.

(** C7. The store name is ["node-<clusterID>-<nodeID>"] under the
    regular keeper and ["shard-<clusterID mod 16>"], whatever the node
    ID, under the multiplexed keeper; the numbers are printed as decimal
    numerals: digits only, and reading the numeral back gives the
    number. *)
Theorem store_name_format
    (kr : regularKeeper db) (km : multiplexedKeeper db) c n :
  name (Regular kr) c n
    = ("node-" ++ fmt.verb_d c ++ "-" ++ fmt.verb_d n)%string
  ∧ name (Multiplexed km) c n
    = ("shard-" ++ fmt.verb_d (c mod 16))%string
  ∧ (∀ n', name (Multiplexed km) c n' = name (Multiplexed km) c n)
  ∧ (∀ u, all_digits (fmt.verb_d u) = true
          ∧ N.of_uint <$> NilEmpty.uint_of_string (fmt.verb_d u) = Some u).
Proof.
  split_and!.
  - apply regularKeeper_name_eq.
  - apply multiplexedKeeper_name_eq.
  - intros n'. simpl. by rewrite !multiplexedKeeper_name_eq.
  - intros u. split; [apply verb_d_digits | apply verb_d_read_back].
Qed.

Example name_regular_5_1 :
  name (Regular (newRegularDBKeeper (db := db))) 5 1 = "node-5-1"%string.
Proof. reflexivity. Qed.

Example name_multiplexed_17_3 :
  name (Multiplexed (newMultiplexedDBKeeper (db := db))) 17 3
  = "shard-1"%string.
Proof. reflexivity. Qed.

Example name_multiplexed_max :
  name (Multiplexed (newMultiplexedDBKeeper (db := db))) (2 ^ 64 - 1) 0
  = "shard-15"%string.
Proof. reflexivity. Qed.

(** ** The shard key *)

Lemma multiplexedKeeper_key_lt (k : multiplexedKeeper db) c :
  multiplexedKeeper_key k c < 16.
Proof. unfold multiplexedKeeper_key. by apply N.mod_lt. Qed.

Lemma low_four_bits_mod c : low_four_bits c = c mod 16.
Proof.
  unfold low_four_bits. change 15 with (N.ones 4).
  rewrite N.land_ones. done.
Qed.

(** C6. The key of the multiplexed keeper is the cluster ID modulo 16:
    the one remainder below 16 of the division by 16, equal to the low
    four bits; the call returns (it does not panic), its result does not
    depend on the keeper's state, which it leaves as it is, and it is
    0, 1, 15, 0, 1 and 15 at 0, 1, 15, 16, 17 and 2^64-1. *)
Theorem multiplexed_key_mod16 (k : multiplexedKeeper db) c :
  key (Multiplexed k) c = Returned (multiplexedKeeper_key k c)
  ∧ multiplexedKeeper_key k c = low_four_bits c
  ∧ (∀ r, multiplexedKeeper_key k c = r ↔ r < 16 ∧ ∃ q, c = 16 * q + r)
  ∧ (∀ k' : multiplexedKeeper db,
       multiplexedKeeper_key k' c = multiplexedKeeper_key k c)
  ∧ is_uint64 (multiplexedKeeper_key k c)
  ∧ (multiplexedKeeper_key k <$> [0; 1; 15; 16; 17; 2 ^ 64 - 1])
    = [0; 1; 15; 0; 1; 15].
Proof.
  split_and!.
  - done.
  - by rewrite low_four_bits_mod.
  - intros r. unfold multiplexedKeeper_key. split.
    + intros <-. split; [by apply N.mod_lt|].
      exists (c / 16). by apply N.div_mod.
    + intros [Hr [q ->]]. symmetry.
      apply (N.mod_unique _ _ q); [done | lia].
  - done.
  - unfold is_uint64. pose proof (multiplexedKeeper_key_lt k c).
    assert (16 < 2 ^ 64) by done. lia.
  - reflexivity.
Qed.

(** C10. The key of the regular keeper panics for every cluster ID: the
    call returns no value, and neither does the collection's [key],
    which passes the call on, when its keeper is the regular one, as it
    is in a collection made with [regular] set. *)
Theorem regular_key_panics {World err : Type}
    (k : regularKeeper db) (fs : FS World err) (dir : string) c :
  key (Regular k) c = Panicked "not suppose to be called"
  ∧ collection_key {| fs := fs; dirname := dir; keeper := Regular k |} c
    = Panicked "not suppose to be called"
  ∧ collection_key (newCollection (db := db) dir fs true) c
    = Panicked "not suppose to be called"
  ∧ (∀ v, key (Regular k) c ≠ Returned v)
  ∧ (∀ v, collection_key
            {| fs := fs; dirname := dir; keeper := Regular k |} c
          ≠ Returned v).
Proof. by split_and!. Qed.

End names.

(** ** Lookups in the keepers *)
Section lookups.
Context {db : Type}.
Implicit Types (v : keeperValue db) (d h : db).

Lemma get_set_eq v c n d : get (set v c n d) c n = Some d.
Proof.
  destruct v as [k|k]; simpl.
  - unfold regularKeeper_get, regularKeeper_set; simpl.
    apply lookup_insert_eq.
  - unfold multiplexedKeeper_get, multiplexedKeeper_set; simpl.
    apply lookup_insert_eq.
Qed.

(** Setting a key that was absent leaves every present entry as it was. *)
Lemma get_set_absent v c n d a b h :
  get v c n = None → get v a b = Some h → get (set v c n d) a b = Some h.
Proof.
  destruct v as [k|k]; simpl.
  - unfold regularKeeper_get, regularKeeper_set; simpl. intros Hn Hs.
    rewrite lookup_insert_ne; [done|].
    intros Heq. by rewrite Heq, Hs in Hn.
  - unfold multiplexedKeeper_get, multiplexedKeeper_set; simpl.
    intros Hn Hs. rewrite lookup_insert_ne; [done|].
    intros Heq. unfold multiplexedKeeper_key in *.
    rewrite Heq in Hn. congruence.
Qed.

Lemma multiplexedLog_set v c n d :
  multiplexedLog (set v c n d) = multiplexedLog v.
Proof. by destruct v. Qed.

Lemma multiplexed_get_shard v c1 n1 c2 n2 :
  multiplexedLog v = true → c1 mod 16 = c2 mod 16 →
  get v c1 n1 = get v c2 n2.
Proof.
  destruct v as [k|k]; simpl; [done|]. intros _ Heq.
  unfold multiplexedKeeper_get, multiplexedKeeper_key. by rewrite Heq.
Qed.

Lemma multiplexed_name_shard v c1 n1 c2 n2 :
  multiplexedLog v = true → c1 mod 16 = c2 mod 16 →
  name v c1 n1 = name v c2 n2.
Proof.
  destruct v as [k|k]; simpl; [done|]. intros _ Heq.
  unfold multiplexedKeeper_name, multiplexedKeeper_key. by rewrite Heq.
Qed.

End lookups.

(** ** [prepareDir] and [getDB], step by step *)
Section getDB_steps.
Context {db World err : Type} (env : imports db World err).
Implicit Types (c : collection db World err)
  (st : io_state db World err) (d h : db) (x : err).

Lemma prepareDir_eq c dbdir st :
  prepareDir env c dbdir st =
    let sr := Stat (fs c) dbdir (world st) in
    if IsNotExist env sr.1 then
      let mr := fileutil_MkdirAll env dbdir (fs c) sr.2 in
      (mr.1, {| world := mr.2;
                log := log st ++ [EvStat dbdir sr.1; EvMkdirAll dbdir mr.1] |})
    else
      (None, {| world := sr.2; log := log st ++ [EvStat dbdir sr.1] |}).
Proof.
  unfold prepareDir, mbind, IO_bind, call_Stat. simpl.
  destruct (Stat (fs c) dbdir (world st)) as [r w]. simpl.
  destruct (IsNotExist env r); [|done].
  unfold call_MkdirAll. simpl.
  destruct (fileutil_MkdirAll env dbdir (fs c) w) as [[x|] w']; simpl;
    by rewrite <- app_assoc.
Qed.

Lemma getDB_hit c clusterID nodeID st d :
  get (keeper c) clusterID nodeID = Some d →
  getDB env c clusterID nodeID st = ((inl d, c), st).
Proof. intros Hget. unfold getDB. by rewrite Hget. Qed.

Lemma getDB_miss c clusterID nodeID st :
  get (keeper c) clusterID nodeID = None →
  getDB env c clusterID nodeID st =
    let dbdir := dbdir_of c clusterID nodeID in
    let p := prepareDir env c dbdir st in
    match p.1 with
    | Some x => ((inr x, c), p.2)
    | None =>
        let o := call_open env dbdir dbdir {| Options_FS := fs c |} p.2 in
        match o.1 with
        | inr x => ((inr x, c), o.2)
        | inl d => ((inl d, registered c clusterID nodeID d), o.2)
        end
    end.
Proof.
  intros Hget. unfold getDB. rewrite Hget.
  unfold mbind, IO_bind, dbdir_of. simpl.
  destruct (prepareDir env c _ st) as [[x|] st1]; simpl; [done|].
  destruct (call_open env _ _ _ st1) as [[d|x] st2]; done.
Qed.

(** The four ways a [getDB] call can go. *)
Lemma getDB_cases c clusterID nodeID st r c' st' :
  getDB env c clusterID nodeID st = ((r, c'), st') →
  let dbdir := dbdir_of c clusterID nodeID in
  (∃ d, get (keeper c) clusterID nodeID = Some d
        ∧ r = inl d ∧ c' = c ∧ st' = st)
  ∨ (get (keeper c) clusterID nodeID = None
     ∧ ∃ x, prepareDir env c dbdir st = (Some x, st')
            ∧ r = inr x ∧ c' = c)
  ∨ (get (keeper c) clusterID nodeID = None
     ∧ ∃ st1 x, prepareDir env c dbdir st = (None, st1)
         ∧ call_open env dbdir dbdir {| Options_FS := fs c |} st1
           = (inr x, st')
         ∧ r = inr x ∧ c' = c)
  ∨ (get (keeper c) clusterID nodeID = None
     ∧ ∃ st1 d, prepareDir env c dbdir st = (None, st1)
         ∧ call_open env dbdir dbdir {| Options_FS := fs c |} st1
           = (inl d, st')
         ∧ r = inl d ∧ c' = registered c clusterID nodeID d).
Proof.
  intros Hrun dbdir.
  destruct (get (keeper c) clusterID nodeID) as [d|] eqn:Hget.
  { rewrite (getDB_hit _ _ _ _ d Hget) in Hrun.
    injection Hrun as <- <- <-. left. by exists d. }
  right. rewrite (getDB_miss _ _ _ _ Hget) in Hrun. simpl in Hrun.
  fold dbdir in Hrun.
  destruct (prepareDir env c dbdir st) as [[x|] st1] eqn:Hp; simpl in Hrun.
  { injection Hrun as <- <- <-. left. split; [done|]. by exists x. }
  right.
  destruct (call_open env dbdir dbdir _ st1) as [[d|x] st2] eqn:Ho;
    simpl in Hrun; injection Hrun as <- <- <-.
  - right. split; [done|]. by exists st1, d.
  - left. split; [done|]. by exists st1, x.
Qed.

Lemma call_open_log name dir opts st r st' :
  call_open env name dir opts st = (r, st') →
  log st' = log st ++ [EvOpen name dir r].
Proof.
  unfold call_open.
  destruct (open env name dir opts (world st)) as [r' w].
  by intros [= <- <-].
Qed.

Lemma prepareDir_log c dbdir st e st' :
  prepareDir env c dbdir st = (e, st') →
  ∃ r, log st' = log st ++ EvStat dbdir r ::
         (if IsNotExist env r then [EvMkdirAll dbdir e] else [])
       ∧ (IsNotExist env r = false → e = None).
Proof.
  rewrite prepareDir_eq. simpl. intros Heq.
  exists (Stat (fs c) dbdir (world st)).1.
  destruct (IsNotExist env _); injection Heq as <- <-; done.
Qed.

(** A handle that [getDB] returns is the one registered for the node
    when the call is over. *)
Lemma getDB_registers c clusterID nodeID st h c' st' :
  getDB env c clusterID nodeID st = ((inl h, c'), st') →
  get (keeper c') clusterID nodeID = Some h.
Proof.
  intros Hrun. apply getDB_cases in Hrun as
    [(d & Hget & [= ->] & -> & _)
    |[(_ & x & _ & Hr & _)
    |[(_ & st1 & x & _ & _ & Hr & _)
    |(_ & st1 & d & _ & _ & [= ->] & ->)]]]; try done.
  apply get_set_eq.
Qed.

(** [getDB] never replaces or removes an entry. *)
Lemma getDB_keeps c clusterID nodeID st r c' st' a b h :
  getDB env c clusterID nodeID st = ((r, c'), st') →
  get (keeper c) a b = Some h → get (keeper c') a b = Some h.
Proof.
  intros Hrun Hab. apply getDB_cases in Hrun as
    [(d & _ & _ & -> & _)
    |[(_ & x & _ & _ & ->)
    |[(_ & st1 & x & _ & _ & _ & ->)
    |(Hnone & st1 & d & _ & _ & _ & ->)]]]; try done.
  simpl. by apply get_set_absent.
Qed.

Lemma getDB_multiplexedLog c clusterID nodeID st r c' st' :
  getDB env c clusterID nodeID st = ((r, c'), st') →
  multiplexedLog (keeper c') = multiplexedLog (keeper c).
Proof.
  intros Hrun. apply getDB_cases in Hrun as
    [(d & _ & _ & -> & _)
    |[(_ & x & _ & _ & ->)
    |[(_ & st1 & x & _ & _ & _ & ->)
    |(Hnone & st1 & d & _ & _ & _ & ->)]]]; try done.
  apply multiplexedLog_set.
Qed.

(** *** Runs *)

Lemma run_call_getDB c clusterID nodeID st :
  run_call env c (CallGetDB clusterID nodeID) st =
    let g := getDB env c clusterID nodeID st in
    ((Some g.1.1, g.1.2), g.2).
Proof.
  simpl. unfold mbind, IO_bind.
  by destruct (getDB env c clusterID nodeID st) as [[r c'] st'].
Qed.

Lemma run_calls_cons c op ops st :
  run_calls env c (op :: ops) st =
    let r := run_call env c op st in
    let rs := run_calls env r.1.2 ops r.2 in
    ((r.1.1 :: rs.1.1, rs.1.2), rs.2).
Proof.
  simpl. unfold mbind, IO_bind.
  destruct (run_call env c op st) as [[r c'] st']. simpl.
  by destruct (run_calls env c' ops st') as [[rs c''] st''].
Qed.

(** No run of [getDB] calls replaces or removes an entry. *)
Lemma run_getDB_keeps ids c st a b h :
  get (keeper c) a b = Some h →
  get (keeper (run_calls env c (getDB_call <$> ids) st).1.2) a b = Some h.
Proof.
  revert c st. induction ids as [|id ids IH]; intros c st Hget; [done|].
  rewrite fmap_cons, run_calls_cons. unfold getDB_call at 1.
  rewrite run_call_getDB. cbn [fst snd]. apply IH.
  destruct (getDB env c id.1 id.2 st) as [[r c'] st'] eqn:Hstep.
  simpl. by eapply getDB_keeps.
Qed.

(** C1, as the code has it. In the directory preparation of [getDB],
    only a "not exist" result of the stat leads to the creation of the
    directory, and an error of that creation is returned unchanged by
    [getDB], which then opens and registers nothing. Any other result of
    the stat, an error included, is not returned: the preparation
    returns nil without creating anything, and [getDB] goes on to open
    the db, as it does after a creation that succeeded; it then returns
    what the open returns, registering the handle if there is one. *)
Theorem prepareDir_error_propagation c clusterID nodeID st :
  get (keeper c) clusterID nodeID = None →
  let dbdir := dbdir_of c clusterID nodeID in
  let opts := {| Options_FS := fs c |} in
  let sr := Stat (fs c) dbdir (world st) in
  let mr := fileutil_MkdirAll env dbdir (fs c) sr.2 in
  (IsNotExist env sr.1 = true →
     prepareDir env c dbdir st
     = (mr.1, {| world := mr.2;
                 log := log st ++ [EvStat dbdir sr.1;
                                   EvMkdirAll dbdir mr.1] |})
     ∧ (∀ x, mr.1 = Some x →
          getDB env c clusterID nodeID st
          = ((inr x, c),
             {| world := mr.2;
                log := log st ++ [EvStat dbdir sr.1;
                                  EvMkdirAll dbdir (Some x)] |})
          ∧ get (keeper c) clusterID nodeID = None)
     ∧ (mr.1 = None →
          let o := open env dbdir dbdir opts mr.2 in
          getDB env c clusterID nodeID st
          = (match o.1 with
             | inl d => (inl d, registered c clusterID nodeID d)
             | inr x => (inr x, c)
             end,
             {| world := o.2;
                log := log st ++ [EvStat dbdir sr.1;
                                  EvMkdirAll dbdir None;
                                  EvOpen dbdir dbdir o.1] |})))
  ∧ (IsNotExist env sr.1 = false →
       prepareDir env c dbdir st
       = (None, {| world := sr.2; log := log st ++ [EvStat dbdir sr.1] |})
       ∧ let o := open env dbdir dbdir opts sr.2 in
         getDB env c clusterID nodeID st
         = (match o.1 with
            | inl d => (inl d, registered c clusterID nodeID d)
            | inr x => (inr x, c)
            end,
            {| world := o.2;
               log := log st ++ [EvStat dbdir sr.1;
                                 EvOpen dbdir dbdir o.1] |})).
Proof.
  intros Hget dbdir opts sr mr.
  pose proof (getDB_miss c clusterID nodeID st Hget) as Hmiss.
  cbv zeta in Hmiss. fold dbdir opts in Hmiss.
  split.
  - intros Hne.
    assert (prepareDir env c dbdir st
            = (mr.1, {| world := mr.2;
                        log := log st ++ [EvStat dbdir sr.1;
                                          EvMkdirAll dbdir mr.1] |}))
      as Hp.
    { rewrite prepareDir_eq. simpl. fold sr. by rewrite Hne. }
    split_and!; [done| |].
    + intros x Hx. split; [|done].
      rewrite Hmiss, Hp. cbn [fst snd]. by rewrite Hx.
    + intros Hnil o. rewrite Hmiss, Hp. cbn [fst snd]. rewrite Hnil.
      unfold call_open. cbn [world log]. fold o.
      destruct o as [[d|x] w]; cbn [fst snd]; by rewrite <- app_assoc.
  - intros Hne.
    assert (prepareDir env c dbdir st
            = (None, {| world := sr.2;
                        log := log st ++ [EvStat dbdir sr.1] |})) as Hp.
    { rewrite prepareDir_eq. simpl. fold sr. by rewrite Hne. }
    split; [done|]. intros o. rewrite Hmiss, Hp. cbn [fst snd].
    unfold call_open. cbn [world log]. fold o.
    destruct o as [[d|x] w]; cbn [fst snd]; by rewrite <- app_assoc.
Qed.

(** C4. When [getDB] returns an error, which it does only when the
    directory preparation or the open failed, the collection is left as
    it was and the node has no entry; the next [getDB] for the node
    starts again with the stat of the directory, returns the error of the
    preparation or of the open if one fails again, and otherwise
    registers and returns the handle that the open yields. *)
Theorem failed_getDB_is_retried c clusterID nodeID st x c' st' :
  getDB env c clusterID nodeID st = ((inr x, c'), st') →
  let dbdir := dbdir_of c clusterID nodeID in
  let opts := {| Options_FS := fs c |} in
  c' = c
  ∧ get (keeper c') clusterID nodeID = None
  ∧ (prepareDir env c dbdir st = (Some x, st')
     ∨ ∃ st1, prepareDir env c dbdir st = (None, st1)
              ∧ call_open env dbdir dbdir opts st1 = (inr x, st'))
  ∧ ∀ st2,
      (∃ r rest,
         log (getDB env c' clusterID nodeID st2).2
         = log st2 ++ EvStat dbdir r :: rest)
      ∧ (∀ y st3, prepareDir env c' dbdir st2 = (Some y, st3) →
           getDB env c' clusterID nodeID st2 = ((inr y, c'), st3))
      ∧ (∀ st3 y st4,
           prepareDir env c' dbdir st2 = (None, st3) →
           call_open env dbdir dbdir opts st3 = (inr y, st4) →
           getDB env c' clusterID nodeID st2 = ((inr y, c'), st4))
      ∧ (∀ st3 d st4,
           prepareDir env c' dbdir st2 = (None, st3) →
           call_open env dbdir dbdir opts st3 = (inl d, st4) →
           getDB env c' clusterID nodeID st2
           = ((inl d, registered c' clusterID nodeID d), st4)
           ∧ get (keeper (registered c' clusterID nodeID d))
               clusterID nodeID = Some d).
Proof.
  intros Hrun dbdir opts.
  assert (c' = c ∧ get (keeper c) clusterID nodeID = None
          ∧ (prepareDir env c dbdir st = (Some x, st')
             ∨ ∃ st1, prepareDir env c dbdir st = (None, st1)
                      ∧ call_open env dbdir dbdir opts st1 = (inr x, st')))
    as (-> & Hget & Hwhy).
  { apply getDB_cases in Hrun as
      [(d & _ & [=] & _)
      |[(Hget & y & Hp & [= ->] & ->)
      |[(Hget & st1 & y & Hp & Ho & [= ->] & ->)
      |(_ & st1 & d & _ & _ & [=] & _)]]].
    - split_and!; [done..|]. by left.
    - split_and!; [done..|]. right. by exists st1. }
  split_and!; [done..|]. intros st2.
  pose proof (getDB_miss c clusterID nodeID st2 Hget) as Hmiss.
  simpl in Hmiss. fold dbdir opts in Hmiss.
  split_and!.
  - rewrite Hmiss.
    destruct (prepareDir env c dbdir st2) as [e st3] eqn:Hp.
    destruct (prepareDir_log _ _ _ _ _ Hp) as (r & Hlog & _).
    exists r. simpl. destruct e as [y|]; simpl.
    { rewrite Hlog. eauto. }
    destruct (call_open env dbdir dbdir opts st3) as [o st4] eqn:Ho.
    apply call_open_log in Ho. simpl.
    exists ((if IsNotExist env r then [EvMkdirAll dbdir None] else [])
            ++ [EvOpen dbdir dbdir o]).
    destruct o; simpl; rewrite Ho, Hlog, <- app_assoc; done.
  - intros y st3 Hp. rewrite Hmiss, Hp. done.
  - intros st3 y st4 Hp Ho. rewrite Hmiss, Hp. simpl. by rewrite Ho.
  - intros st3 d st4 Hp Ho. rewrite Hmiss, Hp. simpl. rewrite Ho.
    split; [done|]. apply get_set_eq.
Qed.

(** C5. After a [getDB] call that returned a handle, a second call for
    the same node returns the same handle and changes nothing: not the
    collection, not the world outside, and it makes no call out of the
    package. When the node had no entry before the first call, the two
    calls together made one stat, a directory creation if the stat saw
    no directory, and one open. *)
Theorem getDB_twice c clusterID nodeID st h c1 st1 :
  getDB env c clusterID nodeID st = ((inl h, c1), st1) →
  let dbdir := dbdir_of c clusterID nodeID in
  getDB env c1 clusterID nodeID st1 = ((inl h, c1), st1)
  ∧ (get (keeper c) clusterID nodeID = None →
       ∃ r, log (getDB env c1 clusterID nodeID st1).2
            = log st ++ EvStat dbdir r ::
                (if IsNotExist env r then [EvMkdirAll dbdir None] else [])
                ++ [EvOpen dbdir dbdir (inl h)]).
Proof.
  intros Hrun dbdir.
  assert (getDB env c1 clusterID nodeID st1 = ((inl h, c1), st1)) as Hhit.
  { apply getDB_hit. by eapply getDB_registers. }
  split; [done|]. intros Hnone. rewrite Hhit. simpl.
  apply getDB_cases in Hrun as
    [(d & Hget & _)
    |[(_ & y & _ & [=] & _)
    |[(_ & st2 & y & _ & _ & [=] & _)
    |(_ & st2 & d & Hp & Ho & [= ->] & ->)]]]; [congruence|].
  fold dbdir in Hp, Ho.
  apply prepareDir_log in Hp as (r & Hlog & _).
  apply call_open_log in Ho. exists r.
  rewrite Ho, Hlog, <- app_assoc. done.
Qed.

(** C2. Under the multiplexed keeper, two nodes whose cluster IDs agree
    modulo 16 have the same store name, and once [getDB] has returned a
    handle for one of them, [getDB] for the other returns that handle,
    at once and after any further [getDB] calls, without changing
    anything. *)
Theorem multiplexed_grouping c (cid1 nid1 cid2 nid2 : N) :
  collection_multiplexedLog c = true →
  cid1 mod 16 = cid2 mod 16 →
  name (keeper c) cid1 nid1 = name (keeper c) cid2 nid2
  ∧ ∀ st h c' st',
      getDB env c cid1 nid1 st = ((inl h, c'), st') →
      getDB env c' cid2 nid2 st' = ((inl h, c'), st')
      ∧ ∀ ids st2 st3,
          let c'' := (run_calls env c' (getDB_call <$> ids) st2).1.2 in
          getDB env c'' cid2 nid2 st3 = ((inl h, c''), st3).
Proof.
  unfold collection_multiplexedLog. intros Hmux Hmod. split.
  { by apply multiplexed_name_shard. }
  intros st h c' st' Hrun.
  assert (multiplexedLog (keeper c') = true) as Hmux'.
  { by rewrite (getDB_multiplexedLog _ _ _ _ _ _ _ Hrun). }
  assert (get (keeper c') cid2 nid2 = Some h) as Hget.
  { rewrite <- (multiplexed_get_shard _ cid1 nid1 cid2 nid2 Hmux' Hmod).
    by eapply getDB_registers. }
  split; [by apply getDB_hit|].
  intros ids st2 st3. apply getDB_hit. by apply run_getDB_keeps.
Qed.

End getDB_steps.

(** ** One handle per node under the regular keeper *)
Section isolation.
Context {db World err : Type} (env : imports db World err).
Implicit Types (c : collection db World err)
  (st : io_state db World err) (d h : db).

Lemma opened_app (l1 l2 : list (event db err)) :
  opened (l1 ++ l2) = opened l1 ++ opened l2.
Proof.
  induction l1 as [|[p r|p r|nm dir [d|x]] l1 IH]; simpl; by rewrite ?IH.
Qed.

Lemma prepareDir_opened c dbdir st e st' :
  prepareDir env c dbdir st = (e, st') →
  opened (log st') = opened (log st).
Proof.
  intros (r & -> & _)%prepareDir_log. rewrite opened_app.
  destruct (IsNotExist env r); simpl; by rewrite app_nil_r.
Qed.

Lemma call_open_opened nm dir opts st r st' :
  call_open env nm dir opts st = (r, st') →
  opened (log st')
  = opened (log st) ++ match r with inl d => [d] | inr _ => [] end.
Proof.
  intros ->%call_open_log. rewrite opened_app. by destruct r.
Qed.

(** Every handle of a regular keeper came from an open of its own. *)
Lemma getDB_handles_opened c clusterID nodeID st r c' st' :
  multiplexedLog (keeper c) = false →
  handles (keeper c) ⊆+ opened (log st) →
  getDB env c clusterID nodeID st = ((r, c'), st') →
  handles (keeper c') ⊆+ opened (log st').
Proof.
  intros Hreg Hinv Hrun. apply getDB_cases in Hrun as
    [(d & _ & _ & -> & ->)
    |[(_ & x & Hp & _ & ->)
    |[(_ & st1 & x & Hp & Ho & _ & ->)
    |(Hnone & st1 & d & Hp & Ho & _ & ->)]]].
  - done.
  - by rewrite (prepareDir_opened _ _ _ _ _ Hp).
  - rewrite (call_open_opened _ _ _ _ _ _ Ho), app_nil_r.
    by rewrite (prepareDir_opened _ _ _ _ _ Hp).
  - rewrite (call_open_opened _ _ _ _ _ _ Ho).
    rewrite (prepareDir_opened _ _ _ _ _ Hp).
    destruct (keeper c) as [k|k] eqn:Hk; [|done].
    unfold registered; simpl. rewrite Hk. simpl in *.
    unfold regularKeeper_set, regularKeeper_get in *. simpl in *.
    rewrite map_to_list_insert by done. rewrite fmap_cons. simpl.
    rewrite (Permutation_app_comm _ [d]). simpl.
    by apply submseteq_skip.
Qed.

Lemma run_getDB_multiplexedLog ids c st :
  multiplexedLog (keeper (run_calls env c (getDB_call <$> ids) st).1.2)
  = multiplexedLog (keeper c).
Proof.
  revert c st. induction ids as [|id ids IH]; intros c st; [done|].
  rewrite fmap_cons, run_calls_cons. unfold getDB_call at 1.
  rewrite run_call_getDB. cbn [fst snd]. rewrite IH.
  destruct (getDB env c id.1 id.2 st) as [[r c'] st'] eqn:Hstep.
  simpl. by eapply getDB_multiplexedLog.
Qed.

Lemma run_getDB_handles_opened ids c st :
  multiplexedLog (keeper c) = false →
  handles (keeper c) ⊆+ opened (log st) →
  let out := run_calls env c (getDB_call <$> ids) st in
  handles (keeper out.1.2) ⊆+ opened (log out.2).
Proof.
  revert c st. induction ids as [|id ids IH]; intros c st Hreg Hinv;
    [done|].
  rewrite fmap_cons, run_calls_cons. unfold getDB_call at 1.
  rewrite run_call_getDB. cbn [fst snd].
  destruct (getDB env c id.1 id.2 st) as [[r c'] st'] eqn:Hstep.
  cbn [fst snd]. apply IH.
  - by rewrite (getDB_multiplexedLog _ _ _ _ _ _ _ _ Hstep).
  - by eapply getDB_handles_opened.
Qed.

(** What a [getDB] call of a run returned is registered for its node
    when the run is over. *)
Lemma run_getDB_registered ids c st i id h :
  ids !! i = Some id →
  (run_calls env c (getDB_call <$> ids) st).1.1 !! i = Some (Some (inl h)) →
  get (keeper (run_calls env c (getDB_call <$> ids) st).1.2) id.1 id.2
  = Some h.
Proof.
  revert c st i. induction ids as [|id0 ids IH]; intros c st i; [done|].
  rewrite fmap_cons, run_calls_cons. unfold getDB_call at 1 3.
  rewrite run_call_getDB. cbn [fst snd].
  destruct (getDB env c id0.1 id0.2 st) as [[r c'] st'] eqn:Hstep.
  cbn [fst snd]. destruct i as [|i]; simpl.
  - intros [= ->] [= ->]. apply run_getDB_keeps.
    by eapply getDB_registers.
  - apply IH.
Qed.

Lemma NoDup_fmap_eq {A B} (f : A → B) (l : list A) x y :
  NoDup (f <$> l) → x ∈ l → y ∈ l → f x = f y → x = y.
Proof.
  induction l as [|a l IH]; [by intros _ ?%elem_of_nil|].
  rewrite fmap_cons, NoDup_cons.
  intros [Hnotin Hnd] [->|Hx]%elem_of_cons [->|Hy]%elem_of_cons Heq.
  - done.
  - destruct Hnotin. rewrite Heq. by apply list_elem_of_fmap_2.
  - destruct Hnotin. rewrite <- Heq. by apply list_elem_of_fmap_2.
  - by apply IH.
Qed.

(** C3. Under the regular keeper two different nodes have different
    store names. In a run of [getDB] calls on a new regular collection
    in which each open that succeeded yielded a handle that no earlier
    open had yielded, two calls for different nodes never returned the
    same handle. *)
Theorem regular_isolation (dir : string) (fs : FS World err)
    (id1 id2 : N * N) :
  id1 ≠ id2 →
  (∀ k : regularKeeper db,
     name (Regular k) id1.1 id1.2 ≠ name (Regular k) id2.1 id2.2)
  ∧ ∀ ids st i j h1 h2,
      let out :=
        run_calls env (newCollection dir fs true) (getDB_call <$> ids) st in
      NoDup (opened (log out.2)) →
      ids !! i = Some id1 → ids !! j = Some id2 →
      out.1.1 !! i = Some (Some (inl h1)) →
      out.1.1 !! j = Some (Some (inl h2)) →
      h1 ≠ h2.
Proof.
  intros Hne. split.
  { intros k Heq.
    change (regularKeeper_name k id1.1 id1.2
            = regularKeeper_name k id2.1 id2.2) in Heq.
    apply regularKeeper_name_inj in Heq as [H1 H2].
    destruct id1, id2; simpl in *. congruence. }
  intros ids st i j h1 h2 out Hnd Hi Hj Hr1 Hr2 <-.
  pose proof (run_getDB_registered _ _ _ _ _ _ Hi Hr1) as Hg1.
  pose proof (run_getDB_registered _ _ _ _ _ _ Hj Hr2) as Hg2.
  pose proof (run_getDB_handles_opened ids (newCollection dir fs true) st
                eq_refl (submseteq_nil_l _)) as Hsub.
  pose proof (run_getDB_multiplexedLog ids (newCollection dir fs true) st)
    as Hreg.
  fold out in Hg1, Hg2, Hsub, Hreg. simpl in Hsub, Hreg.
  destruct (keeper out.1.2) as [k|k]; [|done]. simpl in *.
  unfold regularKeeper_get in *. simpl in *.
  apply elem_of_map_to_list in Hg1, Hg2.
  assert (NoDup (map_to_list (regular_dbs k)).*2) as Hnd'.
  { apply submseteq_Permutation in Hsub as [rest Hperm].
    rewrite Hperm in Hnd. by apply NoDup_app in Hnd as [? _]. }
  pose proof (NoDup_fmap_eq snd _ _ _ Hnd' Hg1 Hg2 eq_refl) as [= Ha Hb].
  destruct id1, id2; simpl in *. congruence.
Qed.

End isolation.

(** ** At most sixteen shards *)
Section shards.
Context {db World err : Type} (env : imports db World err).
Implicit Types (c : collection db World err)
  (st : io_state db World err) (v : keeperValue db).

Lemma shard_keys_size (m : gmap N db) :
  (∀ i, is_Some (m !! i) → i < 16) → (size m ≤ 16)%nat.
Proof.
  intros Hlt. rewrite <- size_dom.
  pose (all := list_to_set (C := gset N)
                 [0; 1; 2; 3; 4; 5; 6; 7; 8; 9; 10; 11; 12; 13; 14; 15]).
  transitivity (size all); [|by vm_compute].
  apply subseteq_size. intros i Hi%elem_of_dom%Hlt.
  assert (i = 0 ∨ i = 1 ∨ i = 2 ∨ i = 3 ∨ i = 4 ∨ i = 5 ∨ i = 6 ∨ i = 7
          ∨ i = 8 ∨ i = 9 ∨ i = 10 ∨ i = 11 ∨ i = 12 ∨ i = 13 ∨ i = 14
          ∨ i = 15) as Hcases by lia.
  unfold all. apply elem_of_list_to_set. rewrite !elem_of_cons. tauto.
Qed.

Lemma set_shard_keys_bounded v clusterID nodeID d :
  shard_keys_bounded v → shard_keys_bounded (set v clusterID nodeID d).
Proof.
  destruct v as [k|k]; simpl; [done|]. intros Hlt i.
  unfold multiplexedKeeper_set. simpl.
  rewrite lookup_insert_is_Some. intros [<-|[_ Hi]]; [|by apply Hlt].
  apply multiplexedKeeper_key_lt.
Qed.

Lemma run_call_shard_keys_bounded c op st :
  shard_keys_bounded (keeper c) →
  shard_keys_bounded (keeper (run_call env c op st).1.2).
Proof.
  intros Hinv. destruct op as [clusterID nodeID|clusterID nodeID d].
  - rewrite run_call_getDB. cbn [fst snd].
    destruct (getDB env c clusterID nodeID st) as [[r c'] st'] eqn:Hstep.
    apply getDB_cases in Hstep as
      [(d & _ & _ & -> & _)
      |[(_ & x & _ & _ & ->)
      |[(_ & st1 & x & _ & _ & _ & ->)
      |(_ & st1 & d & _ & _ & _ & ->)]]]; try done.
    by apply set_shard_keys_bounded.
  - by apply set_shard_keys_bounded.
Qed.

Lemma run_calls_shard_keys_bounded ops c st :
  shard_keys_bounded (keeper c) →
  shard_keys_bounded (keeper (run_calls env c ops st).1.2).
Proof.
  revert c st. induction ops as [|op ops IH]; intros c st Hinv; [done|].
  rewrite run_calls_cons. cbn [fst snd].
  by apply IH, run_call_shard_keys_bounded.
Qed.

(** C8. After any sequence of [getDB] and [set] calls on a new
    multiplexed collection, every key of the keeper's map is below 16,
    so the map has at most 16 entries and the keeper holds at most 16
    handles. *)
Theorem multiplexed_shard_bound (dir : string) (fs : FS World err)
    (ops : list (call db)) st :
  let c := (run_calls env (newCollection dir fs false) ops st).1.2 in
  ∃ k, keeper c = Multiplexed k
       ∧ (∀ i, is_Some (multiplexed_dbs k !! i) → i < 16)
       ∧ (size (multiplexed_dbs k) ≤ 16)%nat
       ∧ (length (handles (keeper c)) ≤ 16)%nat.
Proof.
  intros c.
  assert (shard_keys_bounded (keeper c)) as Hinv.
  { apply run_calls_shard_keys_bounded. simpl. intros i [d Hd].
    by rewrite lookup_empty in Hd. }
  destruct (keeper c) as [k|k]; [done|]. exists k.
  pose proof (shard_keys_size _ Hinv) as Hsize.
  split_and!; [done..|].
  simpl. by rewrite length_fmap, length_map_to_list.
Qed.

End shards.

(** ** [iterate] *)
Section iteration.
Context {db err S : Type}.
Implicit Types (f : db → S → goerror err * S) (s : S)
  (v : keeperValue db) (order visited : list db).

Lemma effects_cons f d l s : effects f (d :: l) s = effects f l (f d s).2.
Proof. done. Qed.

Lemma effects_snoc f d l s :
  effects f (l ++ [d]) s = (f d (effects f l s)).2.
Proof. unfold effects. by rewrite foldl_app. Qed.

Lemma range_loop_spec f order s r s' visited :
  range_loop f order s = (r, s', visited) →
  visited `prefix_of` order
  ∧ s' = effects f visited s
  ∧ (∀ pre d post, visited = pre ++ d :: post →
       (f d (effects f pre s)).1
       = match post with [] => r | _ :: _ => None end)
  ∧ match r with None => visited = order | Some _ => visited ≠ [] end.
Proof.
  revert s r s' visited.
  induction order as [|d0 order IH]; intros s r s' visited; simpl.
  { intros [= <- <- <-]. split_and!; [done..| |done].
    intros pre d1 post Heq. by destruct pre. }
  destruct (f d0 s) as [[e|] s1] eqn:Hf.
  - intros [= <- <- <-]. split_and!; [|by rewrite effects_cons, Hf| |done].
    + by apply prefix_cons, prefix_nil.
    + intros pre d1 post Heq.
      destruct pre as [|a pre]; simpl in Heq;
        [|by destruct pre; simplify_eq].
      injection Heq as <- <-. simpl. by rewrite Hf.
  - destruct (range_loop f order s1) as [[r1 s2] vis1] eqn:Hloop.
    intros [= <- <- <-].
    destruct (IH _ _ _ _ Hloop) as (Hpre & Hs & Hcalls & Hlast).
    split_and!.
    + by apply prefix_cons.
    + by rewrite effects_cons, Hf.
    + intros [|a pre] d post; simpl.
      * intros [= <- <-]. rewrite Hf. simpl.
        destruct vis1; [|done]. by destruct r1.
      * intros [= <- ->]. rewrite Hf. simpl. by apply Hcalls.
    + destruct r1; [done|by subst].
Qed.

Lemma iterate_keeperValue v f s out :
  iterate v f s out ↔ ∃ order, order ≡ₚ handles v ∧ range_loop f order s = out.
Proof. by destruct v. Qed.

(** C9. [iterate], on either keeper, always has a run. In each run the
    callback is applied to handles of the keeper, each entry at most
    once, in some order; the run returns nil exactly when it has applied
    the callback to every entry and every call returned nil; otherwise
    it returns the error of the last call it made, the calls before it
    having returned nil, and makes no further call. The state the
    callbacks leave is the state after the calls that were made, those
    before a failing call included. *)
Theorem iterate_fail_fast v f s :
  (∃ out, iterate v f s out)
  ∧ ∀ r s' visited,
      iterate v f s (r, s', visited) →
      (length visited ≤ length (handles v))%nat
      ∧ (∃ order, order ≡ₚ handles v ∧ visited `prefix_of` order
                  ∧ (r = None → visited = order))
      ∧ s' = effects f visited s
      ∧ (∀ pre d post, visited = pre ++ d :: post →
           (f d (effects f pre s)).1
           = match post with [] => r | _ :: _ => None end)
      ∧ (∀ e, r = Some e →
           ∃ pre d, visited = pre ++ [d]
                    ∧ f d (effects f pre s) = (Some e, s'))
      ∧ ((∀ d s0, d ∈ handles v → (f d s0).1 = None) →
           r = None ∧ visited ≡ₚ handles v).
Proof.
  split.
  { exists (range_loop f (handles v) s). apply iterate_keeperValue.
    by exists (handles v). }
  intros r s' visited (order & Hperm & Hloop)%iterate_keeperValue.
  apply range_loop_spec in Hloop as (Hpre & Hs & Hcalls & Hlast).
  assert (∀ e, r = Some e →
            ∃ pre d, visited = pre ++ [d]
                     ∧ f d (effects f pre s) = (Some e, s')) as Hfail.
  { intros e ->.
    destruct (exists_last Hlast) as (pre & d & ->). exists pre, d.
    split; [done|]. specialize (Hcalls pre d [] eq_refl). simpl in Hcalls.
    rewrite Hs, effects_snoc.
    by destruct (f d (effects f pre s)) as [? ?]; simpl in *; subst. }
  split_and!; [| |done..|].
  - rewrite <- Hperm. by apply prefix_length.
  - exists order. split_and!; [done..|]. intros ->. done.
  - intros Hok. destruct r as [e|].
    + destruct (Hfail e eq_refl) as (pre & d & -> & Hf).
      assert (d ∈ handles v) as Hd.
      { rewrite <- Hperm. destruct Hpre as [k ->].
        rewrite !elem_of_app, list_elem_of_singleton. auto. }
      specialize (Hok d (effects f pre s) Hd). by rewrite Hf in Hok.
    + split; [done|]. by rewrite Hlast.
Qed.

End iteration.

(** ** Runs on the file system in memory *)

(** The scenario of the design document for the regular keeper: two nodes
    of cluster 5 get the handles 0 and 1 and a directory each, and the
    second lookup of the first node creates and opens nothing. *)
Example regular_scenario :
  let out := run_calls memfs.env memfs.regular
               [CallGetDB 5 1; CallGetDB 5 2; CallGetDB 5 1]
               (memfs.start memfs.empty_disk) in
  out.1.1 = [Some (inl 0%nat); Some (inl 1%nat); Some (inl 0%nat)]
  ∧ memfs.dirs (world out.2)
    = ["/data/node-5-2"; "/data/node-5-1"; "/data"]%string
  ∧ opened (log out.2) = [0%nat; 1%nat].
Proof. vm_compute. done. Qed.

(** The scenario for the multiplexed keeper: nodes (1, 9) and (17, 3) are
    both served by shard 1, by one handle and one directory. *)
Example multiplexed_scenario :
  let out := run_calls memfs.env memfs.multiplexed
               [CallGetDB 1 9; CallGetDB 17 3]
               (memfs.start memfs.empty_disk) in
  out.1.1 = [Some (inl 0%nat); Some (inl 0%nat)]
  ∧ memfs.dirs (world out.2) = ["/data/shard-1"; "/data"]%string
  ∧ handles (keeper out.1.2) = [0%nat].
Proof. vm_compute. done. Qed.

(** The stat of the directory is refused with an error that is not "not
    exist": [getDB] does not return that error, it opens the db, returns
    the handle and registers it. *)
Lemma stat_error_not_returned :
  let c := memfs.regular in
  let st := memfs.start memfs.denied_disk in
  get (keeper c) 5 1 = None
  ∧ (Stat (fs c) (dbdir_of c 5 1) (world st)).1 = Some memfs.ErrPermission
  ∧ IsNotExist memfs.env (Some memfs.ErrPermission) = false
  ∧ ¬ (∃ c' st',
         getDB memfs.env c 5 1 st = ((inr memfs.ErrPermission, c'), st'))
  ∧ (getDB memfs.env c 5 1 st).1.1 = inl 0%nat
  ∧ get (keeper (getDB memfs.env c 5 1 st).1.2) 5 1 = Some 0%nat.
Proof.
  split_and!; try by vm_compute.
  intros (c' & st' & Hrun).
  apply (f_equal (λ out, match out.1.1 with inl _ => true | inr _ => false end))
    in Hrun.
  vm_compute in Hrun. discriminate Hrun.
Qed.

Lemma prepareDir_error_propagation_witness :
  get (keeper memfs.regular) 5 1 = None
  ∧ getDB memfs.env memfs.regular 5 1 (memfs.start memfs.readonly_disk)
    = ((inr memfs.ErrReadOnly, memfs.regular),
       {| world := memfs.readonly_disk;
          log := [EvStat "/data/node-5-1" (Some memfs.ErrNotExist);
                  EvMkdirAll "/data/node-5-1" (Some memfs.ErrReadOnly)] |})
  ∧ getDB memfs.env memfs.regular 5 1 (memfs.start memfs.denied_disk)
    = ((inl 0%nat, registered memfs.regular 5 1 0%nat),
       {| world := (memfs.open_db "/data/node-5-1" "/data/node-5-1"
                      {| Options_FS := memfs.fs |} memfs.denied_disk).2;
          log := [EvStat "/data/node-5-1" (Some memfs.ErrPermission);
                  EvOpen "/data/node-5-1" "/data/node-5-1" (inl 0%nat)] |}).
Proof.
  split_and!; [reflexivity| |].
  - destruct (prepareDir_error_propagation memfs.env memfs.regular 5 1
                (memfs.start memfs.readonly_disk) eq_refl) as [Hnot _].
    destruct (Hnot eq_refl) as (_ & Hget & _).
    exact (proj1 (Hget memfs.ErrReadOnly eq_refl)).
  - destruct (prepareDir_error_propagation memfs.env memfs.regular 5 1
                (memfs.start memfs.denied_disk) eq_refl) as [_ Hother].
    exact (proj2 (Hother eq_refl)).
Defined.

Lemma multiplexed_grouping_witness :
  let first := getDB memfs.env memfs.multiplexed 1 9
                 (memfs.start memfs.empty_disk) in
  collection_multiplexedLog memfs.multiplexed = true
  ∧ 1 mod 16 = 17 mod 16
  ∧ first.1.1 = inl 0%nat
  ∧ (getDB memfs.env first.1.2 17 3 first.2).1.1 = inl 0%nat.
Proof.
  intros first. split_and!; [reflexivity..|].
  destruct (multiplexed_grouping memfs.env memfs.multiplexed 1 9 17 3
              eq_refl eq_refl) as [_ Hget].
  destruct (Hget (memfs.start memfs.empty_disk) 0%nat first.1.2 first.2)
    as [Hsecond _].
  { vm_compute. reflexivity. }
  rewrite Hsecond. reflexivity.
Defined.

Lemma regular_isolation_witness :
  let out := run_calls memfs.env (newCollection "/data" memfs.fs true)
               (getDB_call <$> [(5, 1); (5, 2); (5, 1)])
               (memfs.start memfs.empty_disk) in
  (5, 1) ≠ (5, 2)
  ∧ NoDup (opened (log out.2))
  ∧ out.1.1 !! 0%nat = Some (Some (inl 0%nat))
  ∧ out.1.1 !! 1%nat = Some (Some (inl 1%nat))
  ∧ 0%nat ≠ 1%nat.
Proof.
  intros out.
  assert ((5, 1) ≠ (5, 2)) as Hne by discriminate.
  assert (NoDup (opened (log out.2))) as Hnd.
  { vm_compute. apply (NoDup_cons_2 _ _). { by intros ?%list_elem_of_singleton. }
    apply NoDup_singleton. }
  split_and!; [done | done | reflexivity | reflexivity |].
  destruct (regular_isolation memfs.env "/data" memfs.fs (5, 1) (5, 2) Hne)
    as [_ Hdiff].
  exact (Hdiff [(5, 1); (5, 2); (5, 1)] (memfs.start memfs.empty_disk)
           0%nat 1%nat 0%nat 1%nat Hnd eq_refl eq_refl eq_refl eq_refl).
Defined.

Lemma failed_getDB_is_retried_witness :
  let first := getDB memfs.env memfs.multiplexed 5 1
                 (memfs.start memfs.flaky_disk) in
  first.1.1 = inr memfs.ErrOpen
  ∧ first.1.2 = memfs.multiplexed
  ∧ (getDB memfs.env first.1.2 5 1 first.2).1.1 = inl 0%nat.
Proof.
  intros first.
  destruct (failed_getDB_is_retried memfs.env memfs.multiplexed 5 1
              (memfs.start memfs.flaky_disk) memfs.ErrOpen first.1.2 first.2)
    as (Hsame & _ & _ & Hretry).
  { vm_compute. reflexivity. }
  split_and!; [reflexivity | exact Hsame |].
  destruct (Hretry first.2) as (_ & _ & _ & Hopen).
  destruct (Hopen
              (prepareDir memfs.env first.1.2 "/data/shard-5" first.2).2
              0%nat
              (getDB memfs.env first.1.2 5 1 first.2).2) as [Hsecond _].
  { vm_compute. reflexivity. }
  { vm_compute. reflexivity. }
  rewrite Hsecond. reflexivity.
Defined.

Lemma getDB_twice_witness :
  let first := getDB memfs.env memfs.regular 5 1
                 (memfs.start memfs.empty_disk) in
  first.1.1 = inl 0%nat
  ∧ getDB memfs.env first.1.2 5 1 first.2 = ((inl 0%nat, first.1.2), first.2).
Proof.
  intros first. split; [reflexivity|].
  destruct (getDB_twice memfs.env memfs.regular 5 1
              (memfs.start memfs.empty_disk) 0%nat first.1.2 first.2)
    as [Hsecond _].
  { vm_compute. reflexivity. }
  exact Hsecond.
Defined.

Lemma iterate_fail_fast_witness :
  let v := keeper (run_calls memfs.env memfs.regular
                     [CallGetDB 5 1; CallGetDB 5 2; CallGetDB 7 1]
                     (memfs.start memfs.empty_disk)).1.2 in
  let out := range_loop (memfs.fail_on 1%nat) (handles v) 0%nat in
  iterate v (memfs.fail_on 1%nat) 0%nat (out.1.1, out.1.2, out.2)
  ∧ out.1.1 = Some "callback failed"%string
  ∧ (length out.2 ≤ length (handles v))%nat
  ∧ out.1.2 = effects (memfs.fail_on 1%nat) out.2 0%nat.
Proof.
  intros v out.
  assert (iterate v (memfs.fail_on 1%nat) 0%nat (out.1.1, out.1.2, out.2))
    as Hrun.
  { apply iterate_keeperValue. exists (handles v). split; [done|].
    vm_compute. reflexivity. }
  destruct (iterate_fail_fast v (memfs.fail_on 1%nat) 0%nat) as [_ Hspec].
  destruct (Hspec out.1.1 out.1.2 out.2 Hrun) as (Hlen & _ & Heff & _).
  split_and!; [exact Hrun | by vm_compute | exact Hlen | exact Heff].
Defined.

(** * Further properties of the keepers and the collection *)

(** ** [get] after [set] *)
Section keeper_maps.
Context {db : Type}.
Implicit Types (v : keeperValue db) (d h : db) (a b x y : N).

Lemma same_entry_decide v a b x y :
  same_entry v a b x y ∨ ¬ same_entry v a b x y.
Proof.
  destruct v as [k|k]; simpl.
  - destruct (decide (a = x)) as [->|Hne]; [|right; by intros [? ?]].
    destruct (decide (b = y)) as [->|Hne]; [by left|].
    right. by intros [? ?].
  - apply N.eq_decidable.
Qed.

Lemma same_entry_set v a' b' d a b x y :
  same_entry (set v a' b' d) a b x y ↔ same_entry v a b x y.
Proof. by destruct v. Qed.

Lemma same_entry_get v a b x y :
  same_entry v a b x y → get v a b = get v x y.
Proof.
  destruct v as [k|k]; simpl.
  - by intros [-> ->].
  - unfold multiplexedKeeper_get. by intros ->.
Qed.

Lemma get_set_same v a b x y d :
  same_entry v a b x y → get (set v a b d) x y = Some d.
Proof.
  intros Hsame. rewrite <- (same_entry_get _ a b x y).
  - apply get_set_eq.
  - by apply same_entry_set.
Qed.

Lemma get_set_other v a b x y d :
  ¬ same_entry v a b x y → get (set v a b d) x y = get v x y.
Proof.
  destruct v as [k|k]; simpl; intros Hne.
  - unfold regularKeeper_get, regularKeeper_set; simpl.
    apply lookup_insert_ne. intros [= -> ->]. by apply Hne.
  - unfold multiplexedKeeper_get, multiplexedKeeper_set; simpl.
    by apply lookup_insert_ne.
Qed.

(** X1. After [set] for a node on the regular keeper, [get] returns the
    new handle for that node and what it returned before for every other
    node. *)
Theorem regular_get_set (k : regularKeeper db) a b d x y :
  get (set (Regular k) a b d) x y
  = if decide (a = x ∧ b = y) then Some d else get (Regular k) x y.
Proof.
  case_decide as Hsame.
  - by apply get_set_same.
  - by apply get_set_other.
Qed.

(** X2. After [set] for a node on the multiplexed keeper, [get] returns
    the new handle for every node whose cluster ID has the same remainder
    modulo 16, whatever handle these nodes had before, and what it returned
    before for the nodes of the other shards. *)
Theorem multiplexed_get_set (k : multiplexedKeeper db) a b d x y :
  get (set (Multiplexed k) a b d) x y
  = if decide (a mod 16 = x mod 16) then Some d
    else get (Multiplexed k) x y.
Proof.
  case_decide as Hsame.
  - by apply get_set_same.
  - by apply get_set_other.
Qed.

(** X3. [set] overwrites: of two [set] calls on the same entry only the
    second one counts, and two [set] calls on different entries can be
    made in either order. *)
Theorem set_twice v a b x y d1 d2 :
  (same_entry v a b x y →
     set (set v a b d1) x y d2 = set v x y d2)
  ∧ (¬ same_entry v a b x y →
       set (set v a b d1) x y d2 = set (set v x y d2) a b d1).
Proof.
  destruct v as [k|k]; simpl; split.
  - intros [-> ->]. unfold regularKeeper_set; simpl.
    by rewrite insert_insert_eq.
  - intros Hne. unfold regularKeeper_set; simpl. f_equal. f_equal.
    apply insert_insert_ne. intros [= -> ->]. by apply Hne.
  - unfold multiplexedKeeper_set, multiplexedKeeper_key; simpl.
    intros ->. by rewrite insert_insert_eq.
  - unfold multiplexedKeeper_set, multiplexedKeeper_key; simpl.
    intros Hne. f_equal. f_equal. by apply insert_insert_ne.
Qed.

Lemma handles_set_absent v a b d :
  get v a b = None → handles (set v a b d) ≡ₚ d :: handles v.
Proof.
  destruct v as [k|k]; simpl; intros Hnone.
  - unfold regularKeeper_set; simpl.
    by rewrite map_to_list_insert, fmap_cons.
  - unfold multiplexedKeeper_set; simpl.
    by rewrite map_to_list_insert, fmap_cons.
Qed.

Lemma handles_set_length v a b d :
  (length (handles (set v a b d)) ≤ S (length (handles v)))%nat.
Proof.
  destruct v as [k|k]; simpl; rewrite !length_fmap, !length_map_to_list.
  - unfold regularKeeper_set; simpl. rewrite map_size_insert.
    case_match; simpl; lia.
  - unfold multiplexedKeeper_set; simpl. rewrite map_size_insert.
    case_match; simpl; lia.
Qed.

Lemma get_handles v a b h : get v a b = Some h → h ∈ handles v.
Proof.
  destruct v as [k|k]; simpl; intros Hget;
    apply list_elem_of_fmap; eexists (_, h); split; try done;
    by apply elem_of_map_to_list.
Qed.

(** X4. The store names of the multiplexed keeper are the sixteen names
    ["shard-0"] to ["shard-15"], and two nodes have the same name exactly
    when their cluster IDs agree modulo 16. *)
Theorem multiplexed_names (k k' : multiplexedKeeper db) a b x y :
  name (Multiplexed k) a b
    ∈ ["shard-0"; "shard-1"; "shard-2"; "shard-3"; "shard-4"; "shard-5";
       "shard-6"; "shard-7"; "shard-8"; "shard-9"; "shard-10"; "shard-11";
       "shard-12"; "shard-13"; "shard-14"; "shard-15"]%string
  ∧ (name (Multiplexed k) a b = name (Multiplexed k') x y
     ↔ a mod 16 = x mod 16).
Proof.
  split.
  - change (name (Multiplexed k) a b) with (multiplexedKeeper_name k a b).
    rewrite multiplexedKeeper_name_eq.
    pose proof (N.mod_lt a 16 ltac:(done)) as Hlt.
    generalize dependent (a mod 16). intros r Hlt.
    assert (r = 0 ∨ r = 1 ∨ r = 2 ∨ r = 3 ∨ r = 4 ∨ r = 5 ∨ r = 6 ∨ r = 7
            ∨ r = 8 ∨ r = 9 ∨ r = 10 ∨ r = 11 ∨ r = 12 ∨ r = 13 ∨ r = 14
            ∨ r = 15) as Hcases by lia.
    rewrite !elem_of_cons.
    repeat (destruct Hcases as [->|Hcases]; [tauto|]).
    rewrite Hcases. tauto.
  - change (multiplexedKeeper_name k a b = multiplexedKeeper_name k' x y
            ↔ a mod 16 = x mod 16).
    rewrite !multiplexedKeeper_name_eq. split.
    + intros Heq. apply verb_d_inj. by simplify_eq.
    + by intros ->.
Qed.

(** X5. No store name of the regular keeper is a store name of the
    multiplexed keeper. *)
Theorem regular_name_not_multiplexed
    (kr : regularKeeper db) (km : multiplexedKeeper db) a b x y :
  name (Regular kr) a b ≠ name (Multiplexed km) x y.
Proof.
  change (regularKeeper_name kr a b ≠ multiplexedKeeper_name km x y).
  rewrite regularKeeper_name_eq, multiplexedKeeper_name_eq. discriminate.
Qed.

End keeper_maps.

(** ** What calls do to the collection *)
Section collection_runs.
Context {db World err : Type} (env : imports db World err).
Implicit Types (c : collection db World err)
  (st : io_state db World err) (d h : db) (a b x y : N).

(** A call leaves the collection as it is or registers one handle. *)
Lemma run_call_collection c op st :
  (run_call env c op st).1.2 = c
  ∨ ∃ a b d, (run_call env c op st).1.2 = registered c a b d.
Proof.
  destruct op as [a b|a b d].
  - rewrite run_call_getDB. cbn [fst snd].
    destruct (getDB env c a b st) as [[r c'] st'] eqn:Hstep.
    apply getDB_cases in Hstep as
      [(d & _ & _ & -> & _)
      |[(_ & e & _ & _ & ->)
      |[(_ & st1 & e & _ & _ & _ & ->)
      |(_ & st1 & d & _ & _ & _ & ->)]]]; eauto.
  - right. by exists a, b, d.
Qed.

Lemma run_calls_invariant (P : collection db World err → Prop) :
  (∀ c a b d, P c → P (registered c a b d)) →
  ∀ ops c st, P c → P (run_calls env c ops st).1.2.
Proof.
  intros Hreg ops. induction ops as [|op ops IH]; intros c st HP; [done|].
  rewrite run_calls_cons. cbn [fst snd]. apply IH.
  destruct (run_call_collection c op st) as [->|(a & b & d & ->)]; auto.
Qed.

Lemma name_set (v : keeperValue db) a b d x y :
  name (set v a b d) x y = name v x y.
Proof. by destruct v. Qed.

(** X6. Whatever calls are made on a collection, it keeps the keeper kind
    it was made with (multiplexed exactly when [regular] was false), its
    file system and its root directory, so the directory that serves a
    node is the same for the whole life of the collection. *)
Theorem collection_configuration (dir : string) (fs0 : FS World err)
    (regular : bool) (ops : list (call db)) st :
  let c0 := newCollection dir fs0 regular in
  let c := (run_calls env c0 ops st).1.2 in
  collection_multiplexedLog c = negb regular
  ∧ fs c = fs0
  ∧ dirname c = dir
  ∧ ∀ a b, dbdir_of c a b = dbdir_of c0 a b.
Proof.
  intros c0 c. unfold c.
  apply (run_calls_invariant
           (λ c, collection_multiplexedLog c = negb regular
                 ∧ fs c = fs0 ∧ dirname c = dir
                 ∧ ∀ a b, dbdir_of c a b = dbdir_of c0 a b)).
  - intros c1 a b d (Hmux & Hfs & Hdir & Hpath).
    unfold collection_multiplexedLog, dbdir_of, registered in *.
    cbn [keeper fs dirname].
    rewrite multiplexedLog_set. split_and!; [done..|].
    intros x y. rewrite name_set. apply Hpath.
  - unfold c0, collection_multiplexedLog. by destruct regular.
Qed.

(** X7. [getDB] for a node leaves every entry that does not serve this
    node as it was, present or absent. *)
Theorem getDB_other_entries c a b st r c' st' x y :
  getDB env c a b st = ((r, c'), st') →
  ¬ same_entry (keeper c) a b x y →
  get (keeper c') x y = get (keeper c) x y.
Proof.
  intros Hrun Hne. apply getDB_cases in Hrun as
    [(d & _ & _ & -> & _)
    |[(_ & e & _ & _ & ->)
    |[(_ & st1 & e & _ & _ & _ & ->)
    |(_ & st1 & d & _ & _ & _ & ->)]]]; try done.
  by apply get_set_other.
Qed.

(** X8. A [getDB] call for a node that has no entry makes its calls out
    of the package in this order and on one path, the directory of the
    node: a stat; a directory creation exactly when the stat reported "not
    exist"; and, unless that creation failed, one open, given the path as
    both of its arguments. It returns the error of the failed creation, and
    otherwise what the open returned. *)
Theorem getDB_outside_calls c a b st :
  get (keeper c) a b = None →
  let out := getDB env c a b st in
  let p := dbdir_of c a b in
  ∃ sr,
    (IsNotExist env sr = true
     ∧ ∃ e, out.1.1 = inr e
            ∧ log out.2 = log st ++ [EvStat p sr; EvMkdirAll p (Some e)])
    ∨ log out.2
      = log st ++ EvStat p sr ::
          (if IsNotExist env sr then [EvMkdirAll p None] else [])
          ++ [EvOpen p p out.1.1].
Proof.
  intros Hnone out p. unfold out. rewrite (getDB_miss _ _ _ _ _ Hnone).
  cbv zeta. fold p.
  destruct (prepareDir env c p st) as [e st1] eqn:Hp.
  destruct (prepareDir_log _ _ _ _ _ _ Hp) as (sr & Hlog & Hnil).
  exists sr. destruct e as [e|]; cbn [fst snd].
  - left. destruct (IsNotExist env sr); [|by specialize (Hnil eq_refl)].
    split; [done|]. exists e. split; [done|]. by rewrite Hlog.
  - right.
    destruct (call_open env p p _ st1) as [o st2] eqn:Ho. cbn [fst snd].
    apply call_open_log in Ho.
    assert (log st2
            = log st ++ EvStat p sr ::
                (if IsNotExist env sr then [EvMkdirAll p None] else [])
                ++ [EvOpen p p o]) as Hall.
    { rewrite Ho, Hlog, <- app_assoc. done. }
    by destruct o.
Qed.

Lemma getDB_handles_step c a b st r c' st' :
  getDB env c a b st = ((r, c'), st') →
  let new := match get (keeper c) a b, r with
             | None, inl d => [d]
             | _, _ => []
             end in
  opened (log st') = opened (log st) ++ new
  ∧ handles (keeper c') ≡ₚ new ++ handles (keeper c).
Proof.
  intros Hrun. cbv zeta. apply getDB_cases in Hrun as
    [(d & Hget & -> & -> & ->)
    |[(Hget & e & Hp & -> & ->)
    |[(Hget & st1 & e & Hp & Ho & -> & ->)
    |(Hget & st1 & d & Hp & Ho & -> & ->)]]]; rewrite Hget.
  - by rewrite app_nil_r.
  - by rewrite (prepareDir_opened _ _ _ _ _ _ Hp), app_nil_r.
  - rewrite (call_open_opened _ _ _ _ _ _ _ Ho).
    by rewrite (prepareDir_opened _ _ _ _ _ _ Hp).
  - rewrite (call_open_opened _ _ _ _ _ _ _ Ho).
    rewrite (prepareDir_opened _ _ _ _ _ _ Hp).
    split; [done|]. by apply handles_set_absent.
Qed.

Lemma run_getDB_handles ids c st :
  let out := run_calls env c (getDB_call <$> ids) st in
  ∃ new, opened (log out.2) = opened (log st) ++ new
         ∧ handles (keeper out.1.2) ≡ₚ new ++ handles (keeper c).
Proof.
  revert c st. induction ids as [|id ids IH]; intros c st.
  { exists []. simpl. by rewrite app_nil_r. }
  rewrite fmap_cons, run_calls_cons. unfold getDB_call at 1.
  rewrite run_call_getDB. cbn [fst snd].
  destruct (getDB env c id.1 id.2 st) as [[r c'] st'] eqn:Hstep.
  cbn [fst snd].
  destruct (getDB_handles_step _ _ _ _ _ _ _ Hstep) as [Hopen Hhandles].
  destruct (IH c' st') as (new & Hopen' & Hhandles').
  eexists (_ ++ new). split.
  - rewrite Hopen', Hopen, <- app_assoc. done.
  - rewrite Hhandles', Hhandles, !app_assoc.
    by rewrite (Permutation_app_comm new).
Qed.

(** X9. In a run of [getDB] calls on a new collection, the handles the
    keeper holds at the end are the handles that the opens of the run
    returned, each as often as it was returned: every db that was opened
    is registered. *)
Theorem opened_handles_are_registered (dir : string) (fs0 : FS World err)
    (regular : bool) (ids : list (N * N)) st :
  let out := run_calls env (newCollection dir fs0 regular)
               (getDB_call <$> ids) st in
  ∃ new, opened (log out.2) = opened (log st) ++ new
         ∧ handles (keeper out.1.2) ≡ₚ new.
Proof.
  intros out.
  destruct (run_getDB_handles ids (newCollection dir fs0 regular) st)
    as (new & Hopen & Hhandles).
  exists new. split; [done|]. fold out in Hhandles. rewrite Hhandles.
  destruct regular; simpl; by rewrite map_to_list_empty, app_nil_r.
Qed.

(** X10. In a run of [getDB] calls on a new multiplexed collection in
    which each open that succeeded yielded a handle that no earlier open
    had yielded, two calls for nodes of different shards never returned
    the same handle. *)
Theorem multiplexed_isolation (dir : string) (fs0 : FS World err)
    (id1 id2 : N * N) :
  id1.1 mod 16 ≠ id2.1 mod 16 →
  ∀ ids st i j h1 h2,
    let out :=
      run_calls env (newCollection dir fs0 false) (getDB_call <$> ids) st in
    NoDup (opened (log out.2)) →
    ids !! i = Some id1 → ids !! j = Some id2 →
    out.1.1 !! i = Some (Some (inl h1)) →
    out.1.1 !! j = Some (Some (inl h2)) →
    h1 ≠ h2.
Proof.
  intros Hne ids st i j h1 h2 out Hnd Hi Hj Hr1 Hr2 <-.
  pose proof (run_getDB_registered env _ _ _ _ _ _ Hi Hr1) as Hg1.
  pose proof (run_getDB_registered env _ _ _ _ _ _ Hj Hr2) as Hg2.
  destruct (run_getDB_handles ids (newCollection dir fs0 false) st)
    as (new & Hopen & Hhandles).
  assert (handles (keeper (newCollection (db := db) dir fs0 false)) = [])
    as Hempty by (simpl; by rewrite map_to_list_empty).
  rewrite Hempty, app_nil_r in Hhandles.
  pose proof (run_getDB_multiplexedLog env ids
                (newCollection dir fs0 false) st) as Hmux.
  fold out in Hg1, Hg2, Hopen, Hhandles, Hmux. simpl in Hmux.
  rewrite Hopen in Hnd. apply NoDup_app in Hnd as (_ & _ & Hnd).
  rewrite <- Hhandles in Hnd.
  destruct (keeper out.1.2) as [k|k]; [done|]. simpl in *.
  unfold multiplexedKeeper_get, multiplexedKeeper_key in *.
  apply elem_of_map_to_list in Hg1, Hg2.
  by pose proof (NoDup_fmap_eq snd _ _ _ Hnd Hg1 Hg2 eq_refl) as [= Heq].
Qed.

End collection_runs.

(** ** Where the entries come from, and who sees them *)
Section entries.
Context {db World err : Type} (env : imports db World err).
Implicit Types (c : collection db World err)
  (st : io_state db World err) (d h : db) (a b x y : N).

Lemma same_entry_getDB c a b st r c' st' a' b' x y :
  getDB env c a b st = ((r, c'), st') →
  same_entry (keeper c') a' b' x y ↔ same_entry (keeper c) a' b' x y.
Proof.
  intros Hrun. apply getDB_cases in Hrun as
    [(d & _ & _ & -> & _)
    |[(_ & e & _ & _ & ->)
    |[(_ & st1 & e & _ & _ & _ & ->)
    |(_ & st1 & d & _ & _ & _ & ->)]]]; try done.
  apply same_entry_set.
Qed.

(** An entry that is present after [getDB] was present before, or is the
    handle that the call returned for a node of the same entry. *)
Lemma getDB_entry_origin c a b st r c' st' x y h :
  getDB env c a b st = ((r, c'), st') →
  get (keeper c') x y = Some h →
  get (keeper c) x y = Some h
  ∨ (r = inl h ∧ same_entry (keeper c) a b x y).
Proof.
  intros Hrun. apply getDB_cases in Hrun as
    [(d & _ & _ & -> & _)
    |[(_ & e & _ & _ & ->)
    |[(_ & st1 & e & _ & _ & _ & ->)
    |(_ & st1 & d & _ & _ & -> & ->)]]]; auto.
  destruct (same_entry_decide (keeper c) a b x y) as [Hsame|Hne].
  - unfold registered. cbn [keeper].
    rewrite (get_set_same _ _ _ _ _ _ Hsame). intros [= ->]. auto.
  - unfold registered. cbn [keeper].
    rewrite (get_set_other _ _ _ _ _ _ Hne). auto.
Qed.

Lemma run_getDB_entry_origin ids c st x y h :
  let out := run_calls env c (getDB_call <$> ids) st in
  get (keeper out.1.2) x y = Some h →
  get (keeper c) x y = Some h
  ∨ ∃ i id, ids !! i = Some id
            ∧ out.1.1 !! i = Some (Some (inl h))
            ∧ same_entry (keeper c) id.1 id.2 x y.
Proof.
  revert c st. induction ids as [|id ids IH]; intros c st; [by left|].
  cbv zeta.
  change (getDB_call <$> id :: ids)
    with (CallGetDB (db := db) id.1 id.2 :: (getDB_call <$> ids)).
  rewrite run_calls_cons, run_call_getDB. cbn [fst snd].
  destruct (getDB env c id.1 id.2 st) as [[r c'] st'] eqn:Hstep.
  cbn [fst snd]. intros Hget.
  destruct (IH c' st' Hget) as [Hbefore|(i & id' & Hi & Hr & Hsame)].
  - destruct (getDB_entry_origin _ _ _ _ _ _ _ _ _ _ Hstep Hbefore)
      as [?|[-> Hsame]]; [by left|].
    right. by exists 0%nat, id.
  - right. exists (S i), id'. split_and!; [done..|].
    by apply (same_entry_getDB _ _ _ _ _ _ _ _ _ _ _ Hstep).
Qed.

Lemma same_entry_run ids c st a b x y :
  same_entry (keeper (run_calls env c (getDB_call <$> ids) st).1.2) a b x y
  ↔ same_entry (keeper c) a b x y.
Proof.
  revert c st. induction ids as [|id ids IH]; intros c st; [done|].
  rewrite fmap_cons, run_calls_cons. unfold getDB_call at 1.
  rewrite run_call_getDB. cbn [fst snd]. rewrite IH.
  destruct (getDB env c id.1 id.2 st) as [[r c'] st'] eqn:Hstep.
  by apply (same_entry_getDB _ _ _ _ _ _ _ _ _ _ _ Hstep).
Qed.

(** X11. After a run of [getDB] calls on a new collection, a node has the
    entry [h] exactly when some call of the run returned [h] for this node
    (regular keeper) or for a node whose cluster ID has the same remainder
    modulo 16 (multiplexed keeper). *)
Theorem entries_are_returned_handles (dir : string) (fs0 : FS World err)
    (regular : bool) (ids : list (N * N)) st x y h :
  let out := run_calls env (newCollection dir fs0 regular)
               (getDB_call <$> ids) st in
  get (keeper out.1.2) x y = Some h
  ↔ ∃ i id, ids !! i = Some id
            ∧ out.1.1 !! i = Some (Some (inl h))
            ∧ if regular then id = (x, y) else id.1 mod 16 = x mod 16.
Proof.
  intros out. split.
  - intros Hget.
    destruct (run_getDB_entry_origin ids _ st x y h Hget)
      as [Hnew|(i & id & Hi & Hr & Hsame)].
    { by destruct regular. }
    exists i, id. split_and!; [done..|].
    destruct regular, id as [a b]; simpl in *; [|done].
    by destruct Hsame as [-> ->].
  - intros (i & id & Hi & Hr & Hsame).
    pose proof (run_getDB_registered env _ _ _ _ _ _ Hi Hr) as Hget.
    fold out in Hget. rewrite <- Hget. symmetry.
    apply same_entry_get. unfold out. apply same_entry_run.
    destruct regular; simpl; [by subst|done].
Qed.

(** X12. A new collection holds no handle, and each [getDB] or [set] call
    adds at most one: after any sequence of calls the keeper holds at most
    as many handles as calls were made. *)
Theorem handles_at_most_calls (dir : string) (fs0 : FS World err)
    (regular : bool) (ops : list (call db)) st :
  (length (handles
             (keeper (run_calls env (newCollection dir fs0 regular) ops st).1.2))
   ≤ length ops)%nat.
Proof.
  assert (∀ ops c st,
            (length (handles (keeper (run_calls env c ops st).1.2))
             ≤ length (handles (keeper c)) + length ops)%nat) as Hgen.
  { clear. intros ops. induction ops as [|op ops IH]; intros c st.
    { simpl. lia. }
    rewrite run_calls_cons. cbn [fst snd].
    etrans; [apply IH|]. cbn [length].
    destruct (run_call_collection env c op st) as [->|(a & b & d & ->)];
      [lia|].
    pose proof (handles_set_length (keeper c) a b d).
    unfold registered. cbn [keeper]. lia. }
  etrans; [apply Hgen|]. by destruct regular.
Qed.

(** X13. Once [getDB] has returned a handle, every [iterate] over the
    collection that returns nil has applied the callback to that handle,
    also after any further [getDB] calls. *)
Theorem iterate_reaches_returned_handles {S : Type}
    c a b st h c' st' (ids : list (N * N)) st2
    (f : db → S → goerror err * S) (s s' : S) (visited : list db) :
  getDB env c a b st = ((inl h, c'), st') →
  collection_iterate (run_calls env c' (getDB_call <$> ids) st2).1.2
    f s (None, s', visited) →
  h ∈ visited.
Proof.
  intros Hrun (order & Hperm & Hloop)%iterate_keeperValue.
  apply range_loop_spec in Hloop as (_ & _ & _ & ->).
  rewrite Hperm. eapply get_handles, run_getDB_keeps.
  by eapply getDB_registers.
Qed.

(** X14. On a new collection [iterate] returns nil without applying the
    callback. *)
Theorem iterate_new_collection {S : Type} (dir : string)
    (fs0 : FS World err) (regular : bool)
    (f : db → S → goerror err * S) (s : S) out :
  collection_iterate (newCollection (db := db) dir fs0 regular) f s out
  ↔ out = (None, s, []).
Proof.
  unfold collection_iterate. rewrite iterate_keeperValue.
  assert (handles (keeper (newCollection (db := db) dir fs0 regular)) = [])
    as ->.
  { destruct regular; simpl; by rewrite map_to_list_empty. }
  split.
  - intros (order & ->%Permutation_nil_r & <-). done.
  - intros ->. by exists [].
Qed.

End entries.

(** ** More runs on the file system in memory *)

Lemma getDB_other_entries_witness :
  let first := getDB memfs.env memfs.multiplexed 1 9
                 (memfs.start memfs.empty_disk) in
  ¬ same_entry (keeper memfs.multiplexed) 1 9 2 9
  ∧ get (keeper first.1.2) 2 9 = None.
Proof.
  intros first.
  assert (¬ same_entry (keeper memfs.multiplexed) 1 9 2 9) as Hne
    by (by vm_compute).
  split; [exact Hne|].
  rewrite (getDB_other_entries memfs.env memfs.multiplexed 1 9
             (memfs.start memfs.empty_disk) first.1.1 first.1.2 first.2 2 9).
  - reflexivity.
  - vm_compute. reflexivity.
  - exact Hne.
Defined.

Lemma getDB_outside_calls_witness :
  get (keeper memfs.regular) 5 1 = None
  ∧ ∃ sr,
      log (getDB memfs.env memfs.regular 5 1
             (memfs.start memfs.empty_disk)).2
      = EvStat "/data/node-5-1" sr ::
          (if IsNotExist memfs.env sr
           then [EvMkdirAll "/data/node-5-1" None] else [])
          ++ [EvOpen "/data/node-5-1" "/data/node-5-1" (inl 0%nat)].
Proof.
  split; [reflexivity|].
  destruct (getDB_outside_calls memfs.env memfs.regular 5 1
              (memfs.start memfs.empty_disk) eq_refl)
    as (sr & [(_ & e & Herr & _)|Hlog]).
  - vm_compute in Herr. discriminate Herr.
  - exists sr. exact Hlog.
Defined.

Lemma multiplexed_isolation_witness :
  let out := run_calls memfs.env (newCollection "/data" memfs.fs false)
               (getDB_call <$> [(1, 9); (2, 9); (17, 3)])
               (memfs.start memfs.empty_disk) in
  (1, 9).1 mod 16 ≠ (2, 9).1 mod 16
  ∧ NoDup (opened (log out.2))
  ∧ out.1.1 = [Some (inl 0%nat); Some (inl 1%nat); Some (inl 0%nat)]
  ∧ 0%nat ≠ 1%nat.
Proof.
  intros out.
  assert ((1, 9).1 mod 16 ≠ (2, 9).1 mod 16) as Hne by (by vm_compute).
  assert (NoDup (opened (log out.2))) as Hnd.
  { vm_compute. apply (NoDup_cons_2 _ _).
    { by intros ?%list_elem_of_singleton. }
    apply NoDup_singleton. }
  split_and!; [exact Hne | exact Hnd | reflexivity |].
  exact (multiplexed_isolation memfs.env "/data" memfs.fs (1, 9) (2, 9) Hne
           [(1, 9); (2, 9); (17, 3)] (memfs.start memfs.empty_disk)
           0%nat 1%nat 0%nat 1%nat Hnd eq_refl eq_refl eq_refl eq_refl).
Defined.

Lemma iterate_reaches_returned_handles_witness :
  let first := getDB memfs.env memfs.regular 5 1
                 (memfs.start memfs.empty_disk) in
  let c := (run_calls memfs.env first.1.2 (getDB_call <$> [(5, 2)])
              first.2).1.2 in
  let out := range_loop (memfs.fail_on 7%nat) (handles (keeper c)) 0%nat in
  first.1.1 = inl 0%nat
  ∧ out.1.1 = None
  ∧ 0%nat ∈ out.2.
Proof.
  intros first c out.
  assert (out.1.1 = None) as Hnil by (by vm_compute).
  split_and!; [reflexivity | exact Hnil |].
  apply (iterate_reaches_returned_handles memfs.env memfs.regular 5 1
           (memfs.start memfs.empty_disk) 0%nat first.1.2 first.2
           [(5, 2)] first.2 (memfs.fail_on 7%nat) 0%nat out.1.2 out.2).
  - vm_compute. reflexivity.
  - apply iterate_keeperValue. exists (handles (keeper c)).
    split; [done|]. vm_compute. reflexivity.
Defined.
